(** * siigo-connector: the authenticated transport, the token cache and the
      resource helpers, embedded for verification

    Sources embedded here:
    - [src/siigo_connector/config.py]            ([Config])
    - [src/siigo_connector/_http.py]             ([SyncTransport])
    - [src/siigo_connector/resources/customers.py] ([CustomersResource.list])
    - [src/siigo_connector/resources/webhooks.py]  ([WebhookResource])

    [auth.py] and [errors.py] are imported by these files but are not among
    the sources; what is needed of them is written down from the
    specification and from the way the test-suite uses them, and is marked
    as such.

    Conventions.  Python code that raises is a computation returning
    [Result]; code that mutates [self] or talks to the network is a
    function on an explicit state.  The network is an oracle: the n-th call
    on a client is answered by a function of [n] and of what was sent, the
    way the test-suite scripts a [Mock] with [side_effect].  Every call that
    leaves the process is appended to a log kept in the state, so "how many
    calls were made, and with what" is a statement about that log. *)

From Stdlib Require Import ZArith String Ascii List Bool Lia.
From stdpp Require Import base option gmap strings pretty list fin_maps.

#[local] Set Warnings "-register-all".
#[local] Open Scope string_scope.
#[local] Open Scope Z_scope.
#[local] Open Scope list_scope.

(* ===================================================================== *)
(** * Python values                                                       *)
(* ===================================================================== *)

(** What [Response.json()] can return.  Numbers are integers here: no
    claim below depends on a fractional JSON number. *)
Inductive JSON : Type :=
| JNull
| JBool (b : bool)
| JNum (z : Z)
| JStr (s : string)
| JArr (l : list JSON)
| JObj (m : gmap string JSON).

(** Python truthiness ([bool(x)]) of a decoded JSON value. *)
Definition truthy (v : JSON) : bool :=
  match v with
  | JNull => false
  | JBool b => b
  | JNum z => negb (z =? 0)
  | JStr s => negb (String.eqb s "")
  | JArr l => match l with [] => false | _ => true end
  | JObj m => negb (Nat.eqb (size m) 0)
  end.

(** [d.get(k)]: the value under [k], or [None]. *)
Definition dict_get (k : string) (m : gmap string JSON) : JSON :=
  default JNull (m !! k).

(** [a or b]. *)
Definition py_or (a b : JSON) : JSON := if truthy a then a else b.

(** [s.startswith(p)]. *)
Definition startswith (s p : string) : bool := String.prefix p s.

(** [sub in s]. *)
Fixpoint contains (sub s : string) : bool :=
  String.prefix sub s ||
  match s with
  | EmptyString => false
  | String _ s' => contains sub s'
  end.

(** [o or d] for an optional string: [None] and [""] are both falsy. *)
Definition str_or (o : option string) (d : string) : string :=
  match o with
  | Some (String a s) => String a s
  | _ => d
  end.

(* ===================================================================== *)
(** * Exceptions                                                          *)
(* ===================================================================== *)

(** [httpx.HTTPError] and the subclasses the transport distinguishes.
    [ConnectTimeout], [ConnectError] and [ReadError] are httpx's classes of
    those names; every other subclass (and [HTTPError] itself) is
    [OtherHTTPError]. *)
Inductive HTTPError : Type :=
| ConnectTimeout (msg : string)
| ConnectError (msg : string)
| ReadError (msg : string)
| OtherHTTPError (msg : string).

(** [str(e)]. *)
Definition str (e : HTTPError) : string :=
  match e with
  | ConnectTimeout m | ConnectError m | ReadError m | OtherHTTPError m => m
  end.

(** The exceptions that travel through the modelled code.

    Modelled from the spec: [errors.py] is not among the sources.  The three
    library errors are the ones [_http.py] imports; [tests/test_errors.py]
    fixes their shape ([APIResponseError(status, message)], the other two
    built from a message, none of them an httpx class).  [ValueError] is
    what the specification calls the configuration error
    ([tests/test_auth.py] expects a [ValueError]).  [RetryError] is
    tenacity's, raised when the attempts are used up. *)
Inductive Exception : Type :=
| Httpx (e : HTTPError)
| APITimeoutError (msg : string)
| APIConnectionError (msg : string)
| APIResponseError (status : Z) (message : string)
| ValueError (msg : string)
| KeyError (key : string)
| TypeError (msg : string)
| AttributeError (msg : string)
| ValidationError (msg : string)
| JSONDecodeError
| RetryError (last_attempt : Exception).

Inductive Result (X : Type) : Type :=
| Ok (x : X)
| Raise (e : Exception).
Arguments Ok {X} x.
Arguments Raise {X} e.

#[global] Instance Result_ret : MRet Result := λ X x, Ok x.
#[global] Instance Result_bind : MBind Result := λ X Y f r,
  match r with
  | Ok x => f x
  | Raise e => Raise e
  end.

#[global] Instance Result_fmap : FMap Result := λ X Y f r,
  match r with
  | Ok x => Ok (f x)
  | Raise e => Raise e
  end.

(** Stateful code that may raise: the state is threaded through, and it
    survives an exception (what was sent stays sent). *)
Definition M (S X : Type) : Type := S → Result X * S.

#[global] Instance M_ret {S} : MRet (M S) := λ X x s, (Ok x, s).
#[global] Instance M_bind {S} : MBind (M S) := λ X Y f m s,
  match m s with
  | (Ok x, s') => f x s'
  | (Raise e, s') => (Raise e, s')
  end.

Definition raise {S X} (e : Exception) : M S X := λ s, (Raise e, s).

(** A pure computation that may raise, run in a state. *)
Definition lift {S X} (r : Result X) : M S X := λ s, (r, s).

(** [try: body except ...: handler]. *)
Definition try_except {S X} (body : M S X) (handler : Exception → M S X) : M S X :=
  λ s, match body s with
       | (Ok x, s') => (Ok x, s')
       | (Raise e, s') => handler e s'
       end.

(* ===================================================================== *)
(** * config.py                                                           *)
(* ===================================================================== *)

Record Config : Type := {
  base_url : string;
  timeout : Z;
  user_agent : string;
  username : option string;
  access_key : option string;
  partner_id : option string
}.

(* ===================================================================== *)
(** * HTTP messages                                                       *)
(* ===================================================================== *)

Abbreviation Headers := (gmap string string).

(** The part of an [httpx.Response] the code reads.  [body_json] is what
    [json()] decodes [text] to, [None] when it is not JSON. *)
Record Response : Type := {
  status_code : Z;
  text : string;
  body_json : option JSON
}.

Definition json (r : Response) : Result JSON :=
  match body_json r with
  | Some j => Ok j
  | None => Raise JSONDecodeError
  end.

(** The keyword arguments a caller may pass on to [client.request]. *)
Record Kwargs : Type := {
  kw_headers : option Headers;
  kw_params : option (gmap string string);
  kw_json : option JSON
}.

Definition no_kwargs : Kwargs :=
  {| kw_headers := None; kw_params := None; kw_json := None |}.

(** One call [client.request(method, url, headers=..., **kwargs)] as the
    client receives it. *)
Record Request : Type := {
  req_method : string;
  req_url : string;
  req_headers : Headers;
  req_params : option (gmap string string);
  req_json : option JSON
}.

(** What the network does with a call: a response or an exception, after
    [elapsed] milliseconds. *)
Record Reply : Type := {
  outcome : Result Response;
  elapsed : Z
}.

(** The n-th call (counting from 0) carrying request [q] is answered by
    [server n q]. *)
Definition Server : Type := nat → Request → Reply.

(* ===================================================================== *)
(** * The token owner, as the transport sees it                           *)
(* ===================================================================== *)

(** [SyncTransport] is handed its [auth] object by the constructor and
    uses two of its methods.  Both may read the clock, take time, change
    the object and raise; neither can reach the transport's own client.
    The state of such a method is the object paired with the clock
    (milliseconds). *)
Class Auth (A : Type) : Type := {
  token : M (A * Z) string;
  _fetch : M (A * Z) unit
}.

(* ===================================================================== *)
(** * _http.py                                                            *)
(* ===================================================================== *)

(** What a [SyncTransport] does to the world outside it, in the order it
    does it and with what came back: the methods it calls on [self.auth],
    the calls it makes on [self.client], and the sleeps tenacity takes
    between attempts.  It is the transport's [mock_calls]. *)
Inductive Call : Type :=
| AuthToken (r : Result string)
| AuthFetch (r : Result ())
| ClientRequest (q : Request) (r : Result Response)
| Sleep (ms : Z).

(** [self] of a [SyncTransport], together with the clock of the process
    (milliseconds) and the journal of the calls made so far, oldest
    first. *)
Record SyncTransport (A : Type) : Type := {
  cfg : Config;
  auth : A;
  clock : Z;
  calls : list Call
}.
Arguments cfg {A} _.
Arguments auth {A} _.
Arguments clock {A} _.
Arguments calls {A} _.

(** The calls made on [self.client]. *)
Definition requests (l : list Call) : list Request :=
  omap (λ c, match c with ClientRequest q _ => Some q | _ => None end) l.

(** The sleeps taken. *)
Definition sleeps (l : list Call) : list Z :=
  omap (λ c, match c with Sleep ms => Some ms | _ => None end) l.

(** The forced refetches: how often [self.auth._fetch()] was called. *)
Definition fetches (l : list Call) : nat :=
  length (omap (λ c, match c with AuthFetch _ => Some () | _ => None end) l).

(** ** tenacity's decorator

    [@retry(retry=..., wait=..., stop=...)] is tenacity's; the three
    policies below are the ones [_http.py] passes to it, and [retrying] is
    tenacity's loop: run the function; when it raised and the [retry]
    predicate accepts the exception, either give up with [RetryError]
    (the [stop] policy holds; [reraise] is left at its default) or sleep
    for [wait] and run it again. *)

(** [retry_if_exception_type((httpx.ConnectError, httpx.ReadError))]. *)
Definition retry_if_exception_type (e : Exception) : bool :=
  match e with
  | Httpx (ConnectError _) | Httpx (ReadError _) => true
  | _ => false
  end.

(** [wait_exponential(multiplier=0.3, min=0.5, max=5)], in milliseconds:
    [max(min, min(multiplier * 2 ** (attempt_number - 1), max))]. *)
Definition wait_exponential (attempt_number : nat) : Z :=
  Z.max 500 (Z.min (300 * 2 ^ (Z.of_nat attempt_number - 1)) 5000).

(** [stop_after_attempt(3)]. *)
Definition stop_after_attempt : nat := 3.

(** The headers [_headers] builds once it has the token. *)
Definition own_headers (c : Config) (tok : string) : Headers :=
  let base : Headers := {[ "Partner-Id" := str_or (partner_id c) "" ]} in
  <[ "Authorization" := "Bearer " +:+ tok ]> base.

(** [{**own, **extra}]: on a shared key the right operand wins (stdpp's
    union keeps the left one). *)
Definition merge (own extra : Headers) : Headers := extra ∪ own.

(** [kwargs.pop("headers", {})]: the value, and [kwargs] afterwards. *)
Definition pop_headers (kwargs : Kwargs) : Headers * Kwargs :=
  (default ∅ (kw_headers kwargs),
   {| kw_headers := None; kw_params := kw_params kwargs; kw_json := kw_json kwargs |}).

(** What follows the [try] statement. *)
Definition classify (resp : Response) : Result Response :=
  if 400 <=? status_code resp
  then Raise (APIResponseError (status_code resp) (text resp))
  else Ok resp.

Section transport.
Context {A : Type} `{!Auth A}.
Variable server : Server.

Abbreviation T := (SyncTransport A).

(** [time.sleep(ms)]. *)
Definition sleep (ms : Z) : M T () := λ t,
  (Ok (), {| cfg := cfg t; auth := auth t; clock := clock t + ms;
             calls := calls t ++ [Sleep ms] |}).

(** The loop of tenacity's [Retrying], with [remaining] further attempts
    allowed after attempt number [attempt_number]. *)
Fixpoint retrying {X} (remaining attempt_number : nat) (fn : M T X) : M T X := λ t,
  match fn t with
  | (Ok x, t') => (Ok x, t')
  | (Raise e, t') =>
      if retry_if_exception_type e then
        match remaining with
        | O => (Raise (RetryError e), t')
        | S remaining' =>
            match sleep (wait_exponential attempt_number) t' with
            | (_, t'') => retrying remaining' (S attempt_number) fn t''
            end
        end
      else (Raise e, t')
  end.

Definition retry {X} (fn : M T X) : M T X :=
  retrying (stop_after_attempt - 1) 1 fn.

(** A method of [self.auth], run from the transport and entered in the
    journal by [c]. *)
Definition on_auth {X} (c : Result X → Call) (op : M (A * Z) X) : M T X := λ t,
  match op (auth t, clock t) with
  | (r, (a', now')) =>
      (r, {| cfg := cfg t; auth := a'; clock := now'; calls := calls t ++ [c r] |})
  end.

(** [self.client.request(method, url, headers=h, **kwargs)]. *)
Definition client_request (q : Request) : M T Response := λ t,
  let reply := server (length (requests (calls t))) q in
  (outcome reply, {| cfg := cfg t; auth := auth t; clock := clock t + elapsed reply;
                     calls := calls t ++ [ClientRequest q (outcome reply)] |}).

Definition get_cfg : M T Config := λ t, (Ok (cfg t), t).

(** [SyncTransport._headers]. *)
Definition _headers : M T Headers :=
  c ← get_cfg;
  tok ← on_auth AuthToken token;
  mret (own_headers c tok).

(** The expression
    [self.client.request(method, url,
        headers={**self._headers(), **kwargs.pop("headers", {})}, **kwargs)],
    evaluated left to right: [_headers()] first, then the pop, then the
    unpacking of what is left of [kwargs].  Returns the response and
    [kwargs] as the pop left it. *)
Definition issue (method url : string) (kwargs : Kwargs) : M T (Response * Kwargs) :=
  own ← _headers;
  let '(extra, kwargs') := pop_headers kwargs in
  resp ← client_request {| req_method := method; req_url := url;
                           req_headers := merge own extra;
                           req_params := kw_params kwargs';
                           req_json := kw_json kwargs' |};
  mret (resp, kwargs').

(** The body of the [try]. *)
Definition request_try (method url : string) (kwargs : Kwargs) : M T Response :=
  '(resp, kwargs1) ← issue method url kwargs;
  if status_code resp =? 401 then
    (* token may be expired or invalid: refresh once and retry *)
    on_auth AuthFetch _fetch;;
    '(resp2, _) ← issue method url kwargs1;
    mret resp2
  else mret resp.

(** The two [except] clauses, in order; an exception neither of them
    names passes through. *)
Definition request_except (e : Exception) : M T Response :=
  match e with
  | Httpx (ConnectTimeout m) => raise (APITimeoutError m)
  | Httpx h => raise (APIConnectionError (str h))
  | _ => raise e
  end.

(** The undecorated function. *)
Definition request_fn (method url : string) (kwargs : Kwargs) : M T Response :=
  resp ← try_except (request_try method url kwargs) request_except;
  lift (classify resp).

(** [SyncTransport.request]. *)
Definition request (method url : string) (kwargs : Kwargs) : M T Response :=
  retry (request_fn method url kwargs).

End transport.

(* ===================================================================== *)
(** * auth.py                                                             *)
(* ===================================================================== *)

(** Modelled from the spec: [auth.py] is not among the sources.  The
    object is the specification's TokenCache (sections 3 and 4.2) under
    the attribute names [tests/test_auth.py] reads: the credentials live
    in [_cfg], the cached token in [_token], its expiry (a clock reading)
    in [_exp_ts]; all three start as the constructor leaves them, with
    nothing cached.  [posts] logs the credential exchanges sent to the
    token endpoint, oldest first. *)
Record SiigoAuth : Type := {
  _cfg : Config;
  _token : option string;
  _exp_ts : option Z;
  posts : list Request
}.

(** Modelled from the spec: [SiigoAuth(cfg)], "absent at construction". *)
Definition SiigoAuth_init (c : Config) : SiigoAuth :=
  {| _cfg := c; _token := None; _exp_ts := None; posts := [] |}.

(** Modelled from the spec: the message is the one [tests/test_auth.py]
    matches. *)
Definition credentials_required : string :=
  "username, access_key and partner_id are required".

(** Modelled from the spec: "No access_token in response". *)
Definition no_access_token : string := "No access_token in response".

(** Modelled from the spec: the credentials of section 3,
    [{username, accessKey, partnerId}], "required for any token fetch". *)
Definition credentials (c : Config) : option (string * string * string) :=
  match username c, access_key c, partner_id c with
  | Some u, Some k, Some p => Some (u, k, p)
  | _, _, _ => None
  end.

(** Modelled from the spec: section 6, "POST <base_url>/auth with JSON body
    {username, access_key}". *)
Definition auth_request (c : Config) (u k : string) : Request :=
  {| req_method := "POST";
     req_url := base_url c +:+ "/auth";
     req_headers := ∅;
     req_params := None;
     req_json := Some (JObj (<[ "username" := JStr u ]>
                              {[ "access_key" := JStr k ]})) |}.

(** Modelled from the spec: what step 3 of section 4.2 extracts from the
    decoded body: the token, and the expiry [now + expires_in] when
    [expires_in] is there (seconds, against a clock in milliseconds).  A
    body that is no object, or whose [access_token] is no string, has no
    token to extract. *)
Definition extract_token (now : Z) (data : JSON) : Result (string * option Z) :=
  match data with
  | JObj m =>
      match m !! "access_token" with
      | Some (JStr tok) =>
          Ok (tok, match m !! "expires_in" with
                   | Some (JNum n) => Some (now + 1000 * n)
                   | _ => None
                   end)
      | _ => Raise (APIResponseError 500 no_access_token)
      end
  | _ => Raise (APIResponseError 500 no_access_token)
  end.

Section siigo_auth.
Variable token_endpoint : Server.

(** Modelled from the spec: the credential exchange, steps 3 to 5 of
    section 4.2: send the credentials, fail on a non-2xx status with that
    status and the body text, fail on a 2xx body without token with the
    synthetic status 500, otherwise cache token and expiry and return the
    token.  The cache is written only when a token was extracted.  The
    credentials are "required for any token fetch" (section 3), so
    without them nothing is sent.  An exception of the HTTP call itself
    is not handled. *)
Definition exchange : M (SiigoAuth * Z) string := λ '(a, now),
  match credentials (_cfg a) with
  | None => (Raise (ValueError credentials_required), (a, now))
  | Some (u, k, _) =>
      let q := auth_request (_cfg a) u k in
      let reply := token_endpoint (length (posts a)) q in
      let now' := now + elapsed reply in
      let sent := {| _cfg := _cfg a; _token := _token a; _exp_ts := _exp_ts a;
                     posts := posts a ++ [q] |} in
      match outcome reply with
      | Raise e => (Raise e, (sent, now'))
      | Ok r =>
          if (200 <=? status_code r) && (status_code r <? 300) then
            match data ← json r; extract_token now' data with
            | Raise e => (Raise e, (sent, now'))
            | Ok (tok, exp) =>
                (Ok tok, ({| _cfg := _cfg a; _token := Some tok; _exp_ts := exp;
                             posts := posts sent |}, now'))
            end
          else (Raise (APIResponseError (status_code r) (text r)), (sent, now'))
      end
  end.

(** Modelled from the spec: the forced refetch, which "unconditionally
    performs step 3 above regardless of current cache state, then replaces
    the cache". *)
Definition SiigoAuth_fetch : M (SiigoAuth * Z) () :=
  exchange;; mret ().

(** Modelled from the spec: whether step 2 of section 4.2 applies: a
    cached token that has no expiry, or whose expiry is strictly ahead. *)
Definition cached (a : SiigoAuth) (now : Z) : option string :=
  match _token a, _exp_ts a with
  | Some tok, None => Some tok
  | Some tok, Some exp => if now <? exp then Some tok else None
  | None, _ => None
  end.

(** Modelled from the spec: [getToken()], steps 1 to 5 of section 4.2, in
    that order. *)
Definition SiigoAuth_token : M (SiigoAuth * Z) string := λ '(a, now),
  match credentials (_cfg a) with
  | None => (Raise (ValueError credentials_required), (a, now))
  | Some _ =>
      match cached a now with
      | Some tok => (Ok tok, (a, now))
      | None => exchange (a, now)
      end
  end.

#[export] Instance SiigoAuth_Auth : Auth SiigoAuth :=
  {| token := SiigoAuth_token; _fetch := SiigoAuth_fetch |}.

End siigo_auth.

(** [a] after a credential exchange [q] that cached nothing. *)
Definition posted (a : SiigoAuth) (q : Request) : SiigoAuth :=
  {| _cfg := _cfg a; _token := _token a; _exp_ts := _exp_ts a;
     posts := posts a ++ [q] |}.

(* ===================================================================== *)
(** * The runs of [request]                                               *)
(* ===================================================================== *)

(** The request [issue] hands to the client when the token is [tok]. *)
Definition outgoing (method url : string) (kwargs : Kwargs) (c : Config) (tok : string) : Request :=
  {| req_method := method; req_url := url;
     req_headers := merge (own_headers c tok) (default ∅ (kw_headers kwargs));
     req_params := kw_params kwargs;
     req_json := kw_json kwargs |}.

(** What the two [except] clauses turn an exception into. *)
Definition surfaced (e : Exception) : Exception :=
  match e with
  | Httpx (ConnectTimeout m) => APITimeoutError m
  | Httpx h => APIConnectionError (str h)
  | _ => e
  end.

(** The exception a call ended in, if it did. *)
Definition raised (c : Call) : option Exception :=
  match c with
  | AuthToken (Raise e) | AuthFetch (Raise e) | ClientRequest _ (Raise e) => Some e
  | _ => None
  end.

(** The transport [t] after more calls: [auth] and [clock] as given, the
    journal extended by [new]. *)
Definition after {A} (t : SyncTransport A) (a : A) (now : Z) (new : list Call) : SyncTransport A :=
  {| cfg := cfg t; auth := a; clock := now; calls := calls t ++ new |}.

Section runs.
Context {A : Type} `{!Auth A}.
Variable server : Server.
Variables (method url : string) (kwargs : Kwargs).

(** The seven ways through [request_fn], each with the result, the state
    of [self.auth] and of the clock at the end, and the calls made.  The
    first call on the client is number [n]; [kwargs] has lost its
    [headers] by the time the second one is built. *)
Inductive run (t : SyncTransport A) : Result Response → SyncTransport A → Prop :=
| run_token_raises e a1 c1 :
    token (auth t, clock t) = (Raise e, (a1, c1)) →
    run t (Raise (surfaced e)) (after t a1 c1 [AuthToken (Raise e)])
| run_first_raises tok a1 c1 e :
    let q1 := outgoing method url kwargs (cfg t) tok in
    let reply1 := server (length (requests (calls t))) q1 in
    token (auth t, clock t) = (Ok tok, (a1, c1)) →
    outcome reply1 = Raise e →
    run t (Raise (surfaced e))
      (after t a1 (c1 + elapsed reply1)
         [AuthToken (Ok tok); ClientRequest q1 (Raise e)])
| run_first_final tok a1 c1 resp :
    let q1 := outgoing method url kwargs (cfg t) tok in
    let reply1 := server (length (requests (calls t))) q1 in
    token (auth t, clock t) = (Ok tok, (a1, c1)) →
    outcome reply1 = Ok resp →
    status_code resp ≠ 401 →
    run t (classify resp)
      (after t a1 (c1 + elapsed reply1)
         [AuthToken (Ok tok); ClientRequest q1 (Ok resp)])
| run_fetch_raises tok a1 c1 resp e a2 c2 :
    let q1 := outgoing method url kwargs (cfg t) tok in
    let reply1 := server (length (requests (calls t))) q1 in
    token (auth t, clock t) = (Ok tok, (a1, c1)) →
    outcome reply1 = Ok resp →
    status_code resp = 401 →
    _fetch (a1, c1 + elapsed reply1) = (Raise e, (a2, c2)) →
    run t (Raise (surfaced e))
      (after t a2 c2
         [AuthToken (Ok tok); ClientRequest q1 (Ok resp); AuthFetch (Raise e)])
| run_second_token_raises tok a1 c1 resp a2 c2 e a3 c3 :
    let q1 := outgoing method url kwargs (cfg t) tok in
    let reply1 := server (length (requests (calls t))) q1 in
    token (auth t, clock t) = (Ok tok, (a1, c1)) →
    outcome reply1 = Ok resp →
    status_code resp = 401 →
    _fetch (a1, c1 + elapsed reply1) = (Ok (), (a2, c2)) →
    token (a2, c2) = (Raise e, (a3, c3)) →
    run t (Raise (surfaced e))
      (after t a3 c3
         [AuthToken (Ok tok); ClientRequest q1 (Ok resp); AuthFetch (Ok ());
          AuthToken (Raise e)])
| run_second_raises tok a1 c1 resp a2 c2 tok2 a3 c3 e :
    let q1 := outgoing method url kwargs (cfg t) tok in
    let reply1 := server (length (requests (calls t))) q1 in
    let q2 := outgoing method url (snd (pop_headers kwargs)) (cfg t) tok2 in
    let reply2 := server (S (length (requests (calls t)))) q2 in
    token (auth t, clock t) = (Ok tok, (a1, c1)) →
    outcome reply1 = Ok resp →
    status_code resp = 401 →
    _fetch (a1, c1 + elapsed reply1) = (Ok (), (a2, c2)) →
    token (a2, c2) = (Ok tok2, (a3, c3)) →
    outcome reply2 = Raise e →
    run t (Raise (surfaced e))
      (after t a3 (c3 + elapsed reply2)
         [AuthToken (Ok tok); ClientRequest q1 (Ok resp); AuthFetch (Ok ());
          AuthToken (Ok tok2); ClientRequest q2 (Raise e)])
| run_second_final tok a1 c1 resp a2 c2 tok2 a3 c3 resp2 :
    let q1 := outgoing method url kwargs (cfg t) tok in
    let reply1 := server (length (requests (calls t))) q1 in
    let q2 := outgoing method url (snd (pop_headers kwargs)) (cfg t) tok2 in
    let reply2 := server (S (length (requests (calls t)))) q2 in
    token (auth t, clock t) = (Ok tok, (a1, c1)) →
    outcome reply1 = Ok resp →
    status_code resp = 401 →
    _fetch (a1, c1 + elapsed reply1) = (Ok (), (a2, c2)) →
    token (a2, c2) = (Ok tok2, (a3, c3)) →
    outcome reply2 = Ok resp2 →
    run t (classify resp2)
      (after t a3 (c3 + elapsed reply2)
         [AuthToken (Ok tok); ClientRequest q1 (Ok resp); AuthFetch (Ok ());
          AuthToken (Ok tok2); ClientRequest q2 (Ok resp2)]).

End runs.

(* ===================================================================== *)
(** * The resources                                                       *)
(* ===================================================================== *)

(** A resource is built around [_request], a callable it is handed and
    calls as [self._request(method, url, **kwargs)].  The test-suite
    passes a [Mock]; so does this model: [_request] answers its n-th call
    by a function of [n] and of the arguments, and the state is the list
    of the calls made so far, oldest first ([mock_calls]). *)
Record Invocation : Type := {
  inv_method : string;
  inv_url : string;
  inv_kwargs : Kwargs
}.

Definition Backend : Type := nat → Invocation → Result Response.

Definition _request (backend : Backend) (method url : string) (kwargs : Kwargs)
  : M (list Invocation) Response := λ log,
  let c := {| inv_method := method; inv_url := url; inv_kwargs := kwargs |} in
  (backend (length log) c, log ++ [c]).

(** [x[key]] for a decoded JSON value [x] and a string [key]. *)
Definition getitem (x : JSON) (key : string) : Result JSON :=
  match x with
  | JObj m =>
      match m !! key with
      | Some v => Ok v
      | None => Raise (KeyError key)
      end
  | JArr _ => Raise (TypeError "list indices must be integers or slices, not str")
  | JStr _ => Raise (TypeError "string indices must be integers, not 'str'")
  | _ => Raise (TypeError "object is not subscriptable")
  end.

(** [for x in data]: the elements of a list, the keys of a dict, the
    characters of a string; nothing else can be iterated. *)
Definition iterate (data : JSON) : Result (list JSON) :=
  match data with
  | JArr l => Ok l
  | JObj m => Ok (JStr <$> (map_to_list m).*1)
  | JStr s => Ok ((λ a, JStr (String a EmptyString)) <$> list_ascii_of_string s)
  | _ => Raise (TypeError "object is not iterable")
  end.

(** [v == s] for a decoded JSON value [v] and a string [s]. *)
Definition eq_str (v : JSON) (s : string) : bool :=
  match v with
  | JStr s' => String.eqb s' s
  | _ => false
  end.

(** ** resources/customers.py *)

Section customers.
(** The record type [Customer] and pydantic's validation of one item
    against it are left open: no claim depends on the schema. *)
Variable Customer : Type.
Variable validate_customer : JSON → option Customer.
Variable backend : Backend.
Variable base_url_ : string.

Definition customers_base : string := base_url_ +:+ "/v1/customers".

(** [TypeAdapter(list[Customer]).validate_python(items)]: a list each of
    whose items validates; anything else is a [ValidationError]. *)
Definition validate_customers (items : JSON) : Result (list Customer) :=
  match items with
  | JArr l =>
      match mapM validate_customer l with
      | Some cs => Ok cs
      | None => Raise (ValidationError "list[Customer]")
      end
  | _ => Raise (ValidationError "list[Customer]")
  end.

(** [params] as [list] fills it: [created_start] goes in when truthy. *)
Definition list_params (created_start : option string) : gmap string string :=
  match created_start with
  | Some (String a s) => {[ "created_start" := String a s ]}
  | _ => ∅
  end.

(** [data.get("results") or data.get("data") or []].  [get] is a method
    of dicts only. *)
Definition list_items (data : JSON) : Result JSON :=
  match data with
  | JObj m => Ok (py_or (py_or (dict_get "results" m) (dict_get "data" m)) (JArr []))
  | _ => Raise (AttributeError "object has no attribute 'get'")
  end.

(** [CustomersResource.list], run to exhaustion: the customers it
    yields, or the exception raised on the way. *)
Definition customers_list (created_start : option string) : M (list Invocation) (list Customer) :=
  let params := list_params created_start in
  r ← _request backend "GET" customers_base
         {| kw_headers := None; kw_params := Some params; kw_json := None |};
  data ← lift (json r);
  (* Siigo's payload structure usually includes "results" *)
  items ← lift (list_items data);
  lift (validate_customers items).

(** The claim's reading of the same line: the value under ["results"] if
    the key is there and the value truthy, else the value under ["data"]
    on the same terms, else the empty list. *)
Definition present_and_truthy (k : string) (m : gmap string JSON) : option JSON :=
  match m !! k with
  | Some v => if truthy v then Some v else None
  | None => None
  end.

Definition items_as_claimed (m : gmap string JSON) : JSON :=
  match present_and_truthy "results" m with
  | Some v => v
  | None =>
      match present_and_truthy "data" m with
      | Some v => v
      | None => JArr []
      end
  end.

End customers.

(** ** resources/webhooks.py *)

Definition webhook_type_map : gmap string string :=
  <[ "PRODUCTS_CREATE" := "public.siigoapi.products.create" ]>
  (<[ "PRODUCTS_UPDATE" := "public.siigoapi.products.update" ]>
   {[ "STOCK_UPDATE" := "public.siigoapi.products.stock.update" ]}).

Definition invalid_url : string :=
  "Invalid URL. It must start with 'http://' or 'https://'".

Section webhooks.
(** As for customers, the record type [Webhook] and its validation are
    left open. *)
Variable Webhook : Type.
Variable validate_webhook : JSON → option Webhook.
Variable backend : Backend.
Variable base_url_ : string.

Definition webhooks_base : string := base_url_ +:+ "/v1/webhooks".

Definition validate_python (w : JSON) : Result Webhook :=
  match validate_webhook w with
  | Some v => Ok v
  | None => Raise (ValidationError "Webhook")
  end.

(** [next((wh for wh in data if wh["topic"] == self.webhook_type_map[webhook_type]), None)]
    over the elements of [data]: for each one, the left operand of [==]
    first, then the right one. *)
Fixpoint first_with_topic (webhook_type : string) (l : list JSON) : Result (option JSON) :=
  match l with
  | [] => Ok None
  | wh :: l' =>
      topic ← getitem wh "topic";
      wanted ← match webhook_type_map !! webhook_type with
               | Some s => Ok s
               | None => Raise (KeyError webhook_type)
               end;
      if eq_str topic wanted then Ok (Some wh) else first_with_topic webhook_type l'
  end.

(** The generator expression of [get_by_type], from [data] on. *)
Definition find_webhook (webhook_type : string) (data : JSON) : Result (option JSON) :=
  l ← iterate data;
  first_with_topic webhook_type l.

(** [TypeAdapter(Webhook).validate_python(webhook) if webhook else None]. *)
Definition validated_or_none (webhook : option JSON) : Result (option Webhook) :=
  match webhook with
  | Some w => if truthy w then Some <$> validate_python w else Ok None
  | None => Ok None
  end.

(** [WebhookResource.get_by_type]. *)
Definition get_by_type (webhook_type : string) : M (list Invocation) (option Webhook) :=
  r ← _request backend "GET" webhooks_base no_kwargs;
  data ← lift (json r);
  (* Find the webhook with the matching topic *)
  webhook ← lift (find_webhook webhook_type data);
  lift (validated_or_none webhook).

(** The two guards [upsert] and [create] share. *)
Definition check_arguments (webhook_type url : string) : Result () :=
  if negb (bool_decide (is_Some (webhook_type_map !! webhook_type)))
  then Raise (ValueError ("Invalid webhook type: " +:+ webhook_type))
  else if String.eqb url "" || negb (startswith url "http")
  then Raise (ValueError invalid_url)
  else Ok ().

(** [WebhookResource.upsert]: the body ends after the lookup, so what it
    returns is [None]. *)
Definition upsert (webhook_type url : string) : M (list Invocation) (option Webhook) :=
  lift (check_arguments webhook_type url);;
  (* Find the webhook with the matching topic *)
  webhook ← get_by_type webhook_type;
  mret None.

(** [WebhookResource.create]. *)
Definition create (webhook_type url : string) : M (list Invocation) Webhook :=
  lift (check_arguments webhook_type url);;
  let payload :=
    JObj (<[ "topic" := JStr (default "" (webhook_type_map !! webhook_type)) ]>
          (<[ "url" := JStr url ]> {[ "active" := JBool true ]})) in
  r ← _request backend "POST" webhooks_base
         {| kw_headers := None; kw_params := None; kw_json := Some payload |};
  data ← lift (json r);
  lift (validate_python data).

End webhooks.

(* ===================================================================== *)
(** * Fixtures                                                            *)
(* ===================================================================== *)

(** The token owner as [tests/test_http.py] patches it: [token] returns a
    fixed value and [_fetch] does nothing but count its calls. *)
Record PatchedAuth : Type := {
  return_value : string;
  fetch_call_count : nat
}.

#[export] Instance PatchedAuth_Auth : Auth PatchedAuth :=
  {| token := λ '(a, now), (Ok (return_value a), (a, now));
     _fetch := λ '(a, now),
       (Ok (), ({| return_value := return_value a;
                   fetch_call_count := S (fetch_call_count a) |}, now)) |}.

(** [Mock(side_effect=[...])]: the n-th call gets the n-th reply, and
    [last] once the list is used up. *)
Definition side_effect (replies : list Reply) (last : Reply) : Server :=
  λ n _, nth n replies last.

Definition responds (status : Z) (body : string) (j : option JSON) : Reply :=
  {| outcome := Ok {| status_code := status; text := body; body_json := j |};
     elapsed := 0 |}.

Definition fails (e : HTTPError) : Reply :=
  {| outcome := Raise (Httpx e); elapsed := 0 |}.

(** [mock_config] of [tests/conftest.py]. *)
Definition mock_config : Config :=
  {| base_url := "https://api.test.siigo.com";
     timeout := 30;
     user_agent := "siigo-connector/0.1.0 (+https://github.com/arendondiosa/siigo-connector)";
     username := Some "test_user";
     access_key := Some "test_key";
     partner_id := Some "test_partner" |}.

(** [SyncTransport(cfg, auth)] at clock reading [now]. *)
Definition SyncTransport_init {A} (c : Config) (a : A) (now : Z) : SyncTransport A :=
  {| cfg := c; auth := a; clock := now; calls := [] |}.

Definition patched_transport : SyncTransport PatchedAuth :=
  SyncTransport_init mock_config
    {| return_value := "test_token_12345"; fetch_call_count := 0 |} 0.

Definition test_url : string := "https://api.test.siigo.com/v1/test".

(** More fixtures: a token endpoint that answers as
    [mock_auth_response] of [tests/conftest.py] does, a transport whose
    token owner is the [SiigoAuth] above, and the requests and replies the
    examples send and get. *)
Definition token_reply (tok : string) (expires_in : Z) : Reply :=
  responds 200 "" (Some (JObj (<[ "access_token" := JStr tok ]>
                               (<[ "expires_in" := JNum expires_in ]>
                                {[ "token_type" := JStr "Bearer" ]})))).

Definition mock_auth_post : Request := auth_request mock_config "test_user" "test_key".

(** A [SiigoAuth] holding [tok] until [exp], after [n] credential
    exchanges. *)
Definition holding (tok : string) (exp : option Z) (n : nat) : SiigoAuth :=
  {| _cfg := mock_config; _token := Some tok; _exp_ts := exp;
     posts := replicate n mock_auth_post |}.

Definition custom_headers : Kwargs :=
  {| kw_headers := Some {[ "X-Custom-Header" := "v" ]};
     kw_params := None; kw_json := None |}.

Definition mock_response_401 : Response :=
  {| status_code := 401; text := "Unauthorized"; body_json := None |}.


(** The requests and replies of [tests/test_http.py]. *)
Definition plain_request : Request :=
  outgoing "GET" test_url no_kwargs mock_config "test_token_12345".

Definition respond_with (status : Z) (body : string) : Server :=
  side_effect [] (responds status body None).

Definition answered (status : Z) (body : string) : list Call :=
  [AuthToken (Ok "test_token_12345");
   ClientRequest plain_request
     (Ok {| status_code := status; text := body; body_json := None |})].

Definition connection_timeout : Call :=
  ClientRequest plain_request (Raise (Httpx (ConnectTimeout "Connection timeout"))).

(** A token endpoint whose 200 carries no [access_token], as in
    [test_siigo_auth_no_token_in_response]. *)
Definition no_token_endpoint : Server :=
  side_effect [] (responds 200 "" (Some (JObj {[ "token_type" := JStr "Bearer" ]}))).

(** [Config] with no credentials, as in
    [test_siigo_auth_missing_credentials]. *)
Definition config_without_credentials : Config :=
  {| base_url := "https://api.test.siigo.com";
     timeout := 30;
     user_agent := "siigo-connector/0.1.0 (+https://github.com/arendondiosa/siigo-connector)";
     username := None;
     access_key := None;
     partner_id := None |}.

(** Backends for the resources: every call is answered with status 200
    and the given decoded body. *)
Definition answers (j : JSON) : Backend :=
  λ _ _, Ok {| status_code := 200; text := ""; body_json := Some j |}.

Definition one_webhook : JSON :=
  JObj (<[ "id" := JStr "wh-1" ]>
        (<[ "topic" := JStr "public.siigoapi.products.create" ]>
         {[ "url" := JStr "https://example.com/hook" ]})).

Definition lookup_call : Invocation :=
  {| inv_method := "GET"; inv_url := "https://api.test.siigo.com/v1/webhooks";
     inv_kwargs := no_kwargs |}.

Definition list_call : Invocation :=
  {| inv_method := "GET"; inv_url := "https://api.test.siigo.com/v1/customers";
     inv_kwargs := {| kw_headers := None; kw_params := Some ∅; kw_json := None |} |}.

(* ===================================================================== *)
(** * Further fixtures                                                    *)
(* ===================================================================== *)

(** A token owner scripted like a [Mock] with [side_effect]: each call of
    [token] and of [_fetch] takes the next outcome off its list, and the
    last-resort outcome once the list is used up. *)
Record ScriptedAuth : Type := {
  token_script : list (Result string);
  token_default : Result string;
  fetch_script : list (Result ())
}.

#[export] Instance ScriptedAuth_Auth : Auth ScriptedAuth :=
  {| token := λ '(a, now),
       match token_script a with
       | r :: rest =>
           (r, ({| token_script := rest; token_default := token_default a;
                   fetch_script := fetch_script a |}, now))
       | [] => (token_default a, (a, now))
       end;
     _fetch := λ '(a, now),
       match fetch_script a with
       | r :: rest =>
           (r, ({| token_script := token_script a; token_default := token_default a;
                   fetch_script := rest |}, now))
       | [] => (Ok (), (a, now))
       end |}.

Definition scripted (tokens : list (Result string)) (fetches_ : list (Result ()))
  : SyncTransport ScriptedAuth :=
  SyncTransport_init mock_config
    {| token_script := tokens; token_default := Ok "test_token_12345";
       fetch_script := fetches_ |} 0.

Definition unauthorized_then_ok : Server :=
  side_effect [responds 401 "Unauthorized" None] (responds 200 "ok" None).

Definition ok_response : Response :=
  {| status_code := 200; text := "ok"; body_json := None |}.

(** What [request] adds to the journal when the first response is a 401
    and the re-issued call gets a 200, the caller having passed
    [custom_headers]. *)
Definition refreshed_calls : list Call :=
  [AuthToken (Ok "test_token_12345");
   ClientRequest (outgoing "GET" test_url custom_headers mock_config "test_token_12345")
     (Ok mock_response_401);
   AuthFetch (Ok ());
   AuthToken (Ok "test_token_12345");
   ClientRequest
     (outgoing "GET" test_url (pop_headers custom_headers).2 mock_config "test_token_12345")
     (Ok ok_response)].

(* ===================================================================== *)
(** * The rest of the resources                                           *)
(* ===================================================================== *)

(** ** resources/customers.py, [get_id_type_code] *)

(** ID type constants. *)
Definition ID_TYPE_CC : gmap string string := <[ "code" := "13" ]> {[ "name" := "CC" ]}.
Definition ID_TYPE_NIT : gmap string string := <[ "code" := "31" ]> {[ "name" := "NIT" ]}.

(** A character of the ASCII range. *)
Definition is_ascii (a : ascii) : bool := (nat_of_ascii a <? 128)%nat.

(** [str.upper()] on text of the ASCII range: the letters [a] to [z] go
    to [A] to [Z], everything else stays.  (Outside that range Python's
    [upper] does more; strings here are byte strings, and what is proved
    of [get_id_type_code] is proved of ASCII input.) *)
Definition upper_char (a : ascii) : ascii :=
  let n := nat_of_ascii a in
  if ((97 <=? n) && (n <=? 122))%nat then ascii_of_nat (n - 32) else a.

Fixpoint upper (s : string) : string :=
  match s with
  | EmptyString => EmptyString
  | String a s' => String (upper_char a) (upper s')
  end.

Fixpoint all_ascii (s : string) : bool :=
  match s with
  | EmptyString => true
  | String a s' => is_ascii a && all_ascii s'
  end.

(** [CustomersResource.get_id_type_code]; [d["code"]] of a constant that
    has the key. *)
Definition get_id_type_code (id_type : string) : option string :=
  if String.eqb (upper id_type) "CC" then ID_TYPE_CC !! "code"
  else if String.eqb (upper id_type) "NIT" then ID_TYPE_NIT !! "code"
  else None.

(** ** resources/customers.py, [create] *)

Section customers_create.
Variable Customer : Type.
Variable validate_customer : JSON → option Customer.
Variable backend : Backend.
Variable base_url_ : string.

(** [Customer.model_validate(data)]. *)
Definition model_validate (data : JSON) : Result Customer :=
  match validate_customer data with
  | Some c => Ok c
  | None => Raise (ValidationError "Customer")
  end.

(** [CustomersResource.create]; [customer_data] is a dict. *)
Definition customers_create (customer_data : gmap string JSON) : M (list Invocation) Customer :=
  r ← _request backend "POST" (customers_base base_url_)
         {| kw_headers := None; kw_params := None;
            kw_json := Some (JObj customer_data) |};
  data ← lift (json r);
  lift (model_validate data).

End customers_create.

(** ** resources/webhooks.py, [list], [select] and [delete] *)

(** What [delete] can end in besides returning: an exception that came
    out of [_request], or the plain [Exception] it raises itself. *)
Inductive Failure : Type :=
| Propagated (e : Exception)
| PlainException (msg : string).

Section webhooks_more.
Variable Webhook : Type.
Variable validate_webhook : JSON → option Webhook.
Variable backend : Backend.
Variable base_url_ : string.

(** [TypeAdapter(List[Webhook]).validate_python(data)]. *)
Definition validate_webhooks (data : JSON) : Result (list Webhook) :=
  match data with
  | JArr l =>
      match mapM validate_webhook l with
      | Some ws => Ok ws
      | None => Raise (ValidationError "List[Webhook]")
      end
  | _ => Raise (ValidationError "List[Webhook]")
  end.

(** [WebhookResource.list]. *)
Definition webhooks_list : M (list Invocation) (list Webhook) :=
  r ← _request backend "GET" (webhooks_base base_url_) no_kwargs;
  data ← lift (json r);
  lift (validate_webhooks data).

(** [WebhookResource.select].  [get_by_type] hands back a [Webhook]
    instance or [None]; an instance is truthy, and validating an
    instance of the model again returns it. *)
Definition select (webhook_type : string) : M (list Invocation) Webhook :=
  if negb (bool_decide (is_Some (webhook_type_map !! webhook_type)))
  then raise (ValueError ("Invalid webhook type: " +:+ webhook_type))
  else
    (* Find the webhook with the matching topic *)
    webhook ← get_by_type Webhook validate_webhook backend base_url_ webhook_type;
    match webhook with
    | None => raise (ValueError ("Webhook with type " +:+ webhook_type +:+ " not found"))
    | Some w => mret w
    end.

(** The message of [delete]'s own exception. *)
Definition delete_failed (webhook_id : string) (status : Z) : string :=
  "Failed to delete webhook with ID " +:+ webhook_id +:+ ". Status code: " +:+ pretty status.

(** [WebhookResource.delete]: [inr ()] when it returns, [inl] what it
    raised. *)
Definition delete (webhook_id : string) (log : list Invocation)
  : (Failure + ()) * list Invocation :=
  match _request backend "DELETE" (webhooks_base base_url_ +:+ "/" +:+ webhook_id)
          no_kwargs log with
  | (Raise e, log') => (inl (Propagated e), log')
  | (Ok r, log') =>
      if negb (status_code r =? 200)
      then (inl (PlainException (delete_failed webhook_id (status_code r))), log')
      else (inr (), log')
  end.

End webhooks_more.

(** The value an element of the listing has under ["topic"], if it is a
    dict and has one. *)
Definition topic_of (wh : JSON) : option JSON :=
  match wh with
  | JObj m => m !! "topic"
  | _ => None
  end.

(** An element whose topic is [wanted], and one that has a topic which
    is not [wanted]. *)
Definition has_topic (wanted : string) (wh : JSON) : Prop :=
  ∃ v, topic_of wh = Some v ∧ eq_str v wanted = true.

Definition has_other_topic (wanted : string) (wh : JSON) : Prop :=
  ∃ v, topic_of wh = Some v ∧ eq_str v wanted = false.

(** Responses for the examples. *)
Definition two_webhooks : JSON :=
  JArr [JObj (<[ "id" := JStr "wh-0" ]>
              {[ "topic" := JStr "public.siigoapi.products.update" ]});
        JObj (<[ "id" := JStr "wh-1" ]>
              (<[ "topic" := JStr "public.siigoapi.products.create" ]>
               {[ "url" := JStr "https://example.com/hook" ]}))].

Definition other_webhook : JSON :=
  JObj (<[ "id" := JStr "wh-0" ]>
        {[ "topic" := JStr "public.siigoapi.products.update" ]}).

(** A listing whose last element is no webhook at all. *)
Definition listing_with_junk : JSON := JArr ([other_webhook] ++ one_webhook :: [JNull]).

Definition test_base : string := "https://api.test.siigo.com".

Definition ok_with (j : JSON) : Response :=
  {| status_code := 200; text := ""; body_json := Some j |}.

Definition replies_with (status : Z) : Backend :=
  λ _ _, Ok {| status_code := status; text := ""; body_json := None |}.

(* ===================================================================== *)
(** * Two statements that are too strong                                  *)
(* ===================================================================== *)

(** "Whenever the first response is a 401, [request] refetches once and
    re-issues the call once": every run whose journal opens with a token
    read and a 401 has one forced refetch and two calls on the client in
    all. *)
Definition always_reissues_once {A : Type} `{!Auth A}
    (server : Server) (method url : string) (kwargs : Kwargs)
    (t : SyncTransport A) : Prop :=
  ∀ r t' new tok q1 resp1 rest,
    request server method url kwargs t = (r, t') →
    calls t' = calls t ++ new →
    new = AuthToken (Ok tok) :: ClientRequest q1 (Ok resp1) :: rest →
    status_code resp1 = 401 →
    fetches new = 1%nat ∧ length (requests new) = 2%nat.

(** "For a mapped type and a URL starting with http, [upsert] returns
    [None]". *)
Definition upsert_always_returns_none (Webhook : Type)
    (validate_webhook : JSON → option Webhook) (backend : Backend)
    (base_url_ : string) : Prop :=
  ∀ webhook_type url log,
    is_Some (webhook_type_map !! webhook_type) →
    startswith url "http" = true →
    (upsert Webhook validate_webhook backend base_url_ webhook_type url log).1 = Ok None.

(** A token owner whose forced refetch fails: the token endpoint is
    down. *)
Definition endpoint_down : Exception := APIResponseError 500 "token endpoint down".

Definition refetch_fails : SyncTransport ScriptedAuth := scripted [] [Raise endpoint_down].

(** What [request] adds to the journal on [refetch_fails] when the first
    response is a 401. *)
Definition unrefreshed_calls : list Call :=
  [AuthToken (Ok "test_token_12345");
   ClientRequest plain_request (Ok mock_response_401);
   AuthFetch (Raise endpoint_down)].

(** A [_request] that raises, as the transport does on a 500. *)
Definition server_error : Backend :=
  λ _ _, Raise (APIResponseError 500 "Internal Server Error").

(** A validation that accepts nothing. *)
Definition rejects_all : JSON → option JSON := λ _, None.

(* ===================================================================== *)
(** * Every run of [request] is one of the seven                          *)
(* ===================================================================== *)

Lemma requests_app l1 l2 : requests (l1 ++ l2) = requests l1 ++ requests l2.
Proof. apply omap_app. Qed.

Lemma surfaced_not_retried e : retry_if_exception_type (surfaced e) = false.
Proof. by destruct e as [[]| | | | | | | | | |]. Qed.

Lemma classify_not_retried resp e :
  classify resp = Raise e → retry_if_exception_type e = false.
Proof. unfold classify. by destruct (400 <=? status_code resp); intros [= <-]. Qed.

Section run_facts.
Context {A : Type} `{!Auth A}.
Variable server : Server.
Variables (method url : string) (kwargs : Kwargs).

(** tenacity leaves alone a function that returns, or that raises
    something its [retry] predicate does not accept. *)
Lemma retry_transparent {X} (fn : M (SyncTransport A) X) t r t' :
  fn t = (r, t') →
  (∀ e, r = Raise e → retry_if_exception_type e = false) →
  retry fn t = (r, t').
Proof.
  intros Hfn Hno. unfold retry. simpl. rewrite Hfn.
  destruct r as [x|e]; [done|]. by rewrite (Hno e eq_refl).
Qed.

(** [issue], step by step. *)
Lemma issue_eq kw (t : SyncTransport A) :
  issue server method url kw t =
  match token (auth t, clock t) with
  | (Raise e, (a1, c1)) => (Raise e, after t a1 c1 [AuthToken (Raise e)])
  | (Ok tok, (a1, c1)) =>
      let q := outgoing method url kw (cfg t) tok in
      let reply := server (length (requests (calls t))) q in
      (match outcome reply with
       | Ok resp => Ok (resp, snd (pop_headers kw))
       | Raise e => Raise e
       end,
       after t a1 (c1 + elapsed reply)
         [AuthToken (Ok tok); ClientRequest q (outcome reply)])
  end.
Proof.
  unfold issue, _headers, get_cfg, on_auth, client_request, mbind, M_bind, mret, M_ret.
  destruct (token (auth t, clock t)) as [[tok|e] [a1 c1]]; [|done].
  cbn [cfg auth clock calls pop_headers fst snd].
  rewrite requests_app, length_app, Nat.add_0_r.
  rewrite <- (assoc_L (++)). cbn [app requests omap].
  fold (outgoing method url kw (cfg t) tok).
  by destruct (outcome _).
Qed.

Lemma after_after (t : SyncTransport A) a1 c1 l1 a2 c2 l2 :
  after (after t a1 c1 l1) a2 c2 l2 = after t a2 c2 (l1 ++ l2).
Proof. unfold after; cbn. by rewrite (assoc_L (++)). Qed.

Lemma on_auth_eq {X} (c : Result X → Call) (op : M (A * Z) X) (t : SyncTransport A) :
  on_auth c op t =
  match op (auth t, clock t) with
  | (r, (a1, c1)) => (r, after t a1 c1 [c r])
  end.
Proof. reflexivity. Qed.

Lemma second_call_number (l : list Call) a q r f :
  length (requests ((l ++ [AuthToken a; ClientRequest q r]) ++ [AuthFetch f])) =
  S (length (requests l)).
Proof. rewrite !requests_app, !length_app. cbn. lia. Qed.

Lemma request_except_eq e (t : SyncTransport A) :
  request_except e t = (Raise (surfaced e), t).
Proof. by destruct e as [[]| | | | | | | | | |]. Qed.

(** [request_fn], step by step. *)
Lemma request_fn_eq (t : SyncTransport A) :
  request_fn server method url kwargs t =
  match token (auth t, clock t) with
  | (Raise e, (a1, c1)) => (Raise (surfaced e), after t a1 c1 [AuthToken (Raise e)])
  | (Ok tok, (a1, c1)) =>
      let q1 := outgoing method url kwargs (cfg t) tok in
      let reply1 := server (length (requests (calls t))) q1 in
      match outcome reply1 with
      | Raise e =>
          (Raise (surfaced e),
           after t a1 (c1 + elapsed reply1)
             [AuthToken (Ok tok); ClientRequest q1 (Raise e)])
      | Ok resp =>
          if status_code resp =? 401 then
            match _fetch (a1, c1 + elapsed reply1) with
            | (Raise e, (a2, c2)) =>
                (Raise (surfaced e),
                 after t a2 c2
                   [AuthToken (Ok tok); ClientRequest q1 (Ok resp);
                    AuthFetch (Raise e)])
            | (Ok u, (a2, c2)) =>
                match token (a2, c2) with
                | (Raise e, (a3, c3)) =>
                    (Raise (surfaced e),
                     after t a3 c3
                       [AuthToken (Ok tok); ClientRequest q1 (Ok resp);
                        AuthFetch (Ok u); AuthToken (Raise e)])
                | (Ok tok2, (a3, c3)) =>
                    let q2 := outgoing method url (pop_headers kwargs).2 (cfg t) tok2 in
                    let reply2 := server (S (length (requests (calls t)))) q2 in
                    (match outcome reply2 with
                     | Ok resp2 => classify resp2
                     | Raise e => Raise (surfaced e)
                     end,
                     after t a3 (c3 + elapsed reply2)
                       [AuthToken (Ok tok); ClientRequest q1 (Ok resp);
                        AuthFetch (Ok u); AuthToken (Ok tok2);
                        ClientRequest q2 (outcome reply2)])
                end
            end
          else
            (classify resp,
             after t a1 (c1 + elapsed reply1)
               [AuthToken (Ok tok); ClientRequest q1 (Ok resp)])
      end
  end.
Proof.
  unfold request_fn, try_except, request_try, mbind, M_bind, mret, M_ret, lift, raise.
  rewrite issue_eq.
  destruct (token (auth t, clock t)) as [[tok|e] [a1 c1]] eqn:Htok.
  2: { by rewrite request_except_eq. }
  cbv zeta.
  destruct (outcome (server _ (outgoing method url kwargs (cfg t) tok)))
    as [resp|e] eqn:Hout1.
  2: { by rewrite request_except_eq. }
  destruct (status_code resp =? 401) eqn:H401; [|done].
  rewrite on_auth_eq. cbn [auth clock after].
  destruct (_fetch _) as [[u|e] [a2 c2]] eqn:Hfetch.
  2: { by rewrite request_except_eq, after_after. }
  rewrite issue_eq. cbn [auth clock cfg calls after].
  destruct (token (a2, c2)) as [[tok2|e] [a3 c3]] eqn:Htok2.
  2: { by rewrite request_except_eq, !after_after. }
  cbv zeta. rewrite second_call_number, !after_after. cbn [app].
  destruct (outcome (server _ (outgoing method url _ (cfg t) tok2)))
    as [resp2|e] eqn:Hout2; [done|].
  by rewrite request_except_eq.
Qed.

(** Every run of the undecorated function is one of the seven. *)
Lemma request_fn_run t r t' :
  request_fn server method url kwargs t = (r, t') → run server method url kwargs t r t'.
Proof.
  rewrite request_fn_eq.
  destruct (token (auth t, clock t)) as [[tok|e] [a1 c1]] eqn:Htok.
  2: { intros [= <- <-]. by apply run_token_raises. }
  cbv zeta.
  destruct (outcome (server _ (outgoing method url kwargs (cfg t) tok)))
    as [resp|e] eqn:Hout1.
  2: { intros [= <- <-]. by eapply run_first_raises. }
  destruct (status_code resp =? 401) eqn:H401.
  2: { intros [= <- <-]. apply run_first_final; [done..|]. by apply Z.eqb_neq. }
  apply Z.eqb_eq in H401.
  destruct (_fetch _) as [[[]|e] [a2 c2]] eqn:Hfetch.
  2: { intros [= <- <-]. by eapply run_fetch_raises. }
  destruct (token (a2, c2)) as [[tok2|e] [a3 c3]] eqn:Htok2.
  2: { intros [= <- <-]. by eapply run_second_token_raises. }
  destruct (outcome (server _ (outgoing method url _ (cfg t) tok2)))
    as [resp2|e] eqn:Hout2; intros [= <- <-].
  - by eapply run_second_final.
  - by eapply run_second_raises.
Qed.

(** No exception leaves [request_fn] as an httpx error: the second
    [except] clause has caught them all. *)
Lemma request_fn_raises t e t' :
  request_fn server method url kwargs t = (Raise e, t') →
  retry_if_exception_type e = false.
Proof.
  intros Hrun%request_fn_run.
  inversion Hrun; subst;
    first [ apply surfaced_not_retried | by eapply classify_not_retried ].
Qed.

(** So the decorator never gets to retry: [request] is [request_fn]. *)
Lemma request_undecorated t :
  request server method url kwargs t = request_fn server method url kwargs t.
Proof.
  unfold request.
  destruct (request_fn server method url kwargs t) as [r t'] eqn:Hfn.
  apply retry_transparent; [done|].
  intros e ->. by eapply request_fn_raises.
Qed.

Lemma request_run t r t' :
  request server method url kwargs t = (r, t') → run server method url kwargs t r t'.
Proof. rewrite request_undecorated. apply request_fn_run. Qed.

End run_facts.

(* ===================================================================== *)
(** * The transport's contract                                            *)
(* ===================================================================== *)

(** ** Headers *)

Lemma own_headers_authorization c tok :
  own_headers c tok !! "Authorization" = Some ("Bearer " +:+ tok).
Proof. unfold own_headers. by rewrite lookup_insert_eq. Qed.

Lemma own_headers_partner_id c tok :
  own_headers c tok !! "Partner-Id" = Some (str_or (partner_id c) "").
Proof.
  unfold own_headers. rewrite lookup_insert_ne by done.
  by rewrite lookup_singleton_eq.
Qed.

(** [{**own, **extra}]: the caller's value where the caller has one. *)
Lemma merge_lookup own extra k :
  merge own extra !! k =
  match extra !! k with
  | Some v => Some v
  | None => own !! k
  end.
Proof.
  unfold merge. destruct (extra !! k) as [v|] eqn:Hk.
  - by apply lookup_union_Some_l.
  - by rewrite lookup_union_r.
Qed.

(** The first call of an attempt carries what the caller passed. *)
Lemma outgoing_lookup method url kwargs c tok k :
  req_headers (outgoing method url kwargs c tok) !! k =
  match default ∅ (kw_headers kwargs) !! k with
  | Some v => Some v
  | None => own_headers c tok !! k
  end.
Proof. apply merge_lookup. Qed.

(** The second one does not: the first has popped [headers] off
    [kwargs]. *)
Lemma outgoing_after_pop method url kwargs c tok :
  req_headers (outgoing method url (pop_headers kwargs).2 c tok) = own_headers c tok.
Proof. unfold outgoing, merge. cbn. apply (left_id_L ∅ (∪)). Qed.

(** ** The claims about [request] *)

Lemma calls_after {A} (t : SyncTransport A) a c new l :
  calls (after t a c l) = calls t ++ new → new = l.
Proof. cbn. intros H. symmetry. by eapply app_inv_head. Qed.

(** Case analysis on a run of [request]: [Hreq] is the equation of the
    run and [Hnew] names the calls it added; one goal per way through,
    with the added calls spelled out. *)
Ltac by_cases_of_run Hreq Hnew :=
  apply request_run in Hreq; inversion Hreq; subst;
  apply calls_after in Hnew; subst.

Section contract.
Context {A : Type} `{!Auth A}.
Variable server : Server.
Variables (method url : string) (kwargs : Kwargs).

(** The journal only grows, so the calls a run added can always be
    named. *)
Lemma request_journal_grows (t : SyncTransport A) r t' :
  request server method url kwargs t = (r, t') →
  ∃ new, calls t' = calls t ++ new.
Proof.
  intros Hreq%request_run. inversion Hreq; subst; cbn; eauto.
Qed.

(** The 401 path when everything goes through.  When the first call on
    the client comes back with status 401 and
    the forced refetch goes through, [request] calls [_fetch] once and
    the client once more, and nothing else: the journal grows by exactly
    the token read, the first call, the one [_fetch], the token read that
    rebuilds the headers, and the one re-issued call.  The re-issued call
    carries [Authorization: Bearer] followed by the token read after the
    refetch.  Whatever the second call yields is final: a response is
    classified by its own status (a second 401 is an [APIResponseError]
    with status 401, there is no third call), an exception surfaces. *)
Theorem unauthorized_refreshes_once (t : SyncTransport A) tok1 a1 c1 resp1 a2 c2 tok2 a3 c3 :
  let q1 := outgoing method url kwargs (cfg t) tok1 in
  let reply1 := server (length (requests (calls t))) q1 in
  let q2 := outgoing method url (pop_headers kwargs).2 (cfg t) tok2 in
  let reply2 := server (S (length (requests (calls t)))) q2 in
  let new := [AuthToken (Ok tok1); ClientRequest q1 (Ok resp1); AuthFetch (Ok ());
              AuthToken (Ok tok2); ClientRequest q2 (outcome reply2)] in
  token (auth t, clock t) = (Ok tok1, (a1, c1)) →
  outcome reply1 = Ok resp1 →
  status_code resp1 = 401 →
  _fetch (a1, c1 + elapsed reply1) = (Ok (), (a2, c2)) →
  token (a2, c2) = (Ok tok2, (a3, c3)) →
  request server method url kwargs t =
    (match outcome reply2 with
     | Ok resp2 => classify resp2
     | Raise e => Raise (surfaced e)
     end, after t a3 (c3 + elapsed reply2) new)
  ∧ fetches new = 1%nat
  ∧ requests new = [q1; q2]
  ∧ req_headers q2 !! "Authorization" = Some ("Bearer " +:+ tok2)
  ∧ ∀ resp2, outcome reply2 = Ok resp2 → status_code resp2 = 401 →
      classify resp2 = Raise (APIResponseError 401 (text resp2)).
Proof.
  intros q1 reply1 q2 reply2 new Htok Hout H401 Hfetch Htok2.
  split; [|split; [done|split; [done|split]]].
  - rewrite request_undecorated, request_fn_eq, Htok. cbv zeta.
    fold q1 reply1. rewrite Hout, H401. cbn [Z.eqb Pos.eqb].
    by rewrite Hfetch, Htok2.
  - subst q2. by rewrite outgoing_after_pop, own_headers_authorization.
  - intros resp2 _ H. unfold classify. by rewrite H.
Qed.

(** Whenever the first response is a 401, whether or not what follows
    succeeds: [_fetch] is called exactly once and the client at most
    twice. *)
Lemma unauthorized_bounds (t : SyncTransport A) r t' new tok q1 resp1 rest :
  request server method url kwargs t = (r, t') →
  calls t' = calls t ++ new →
  new = AuthToken (Ok tok) :: ClientRequest q1 (Ok resp1) :: rest →
  status_code resp1 = 401 →
  fetches new = 1%nat ∧ (length (requests new) ≤ 2)%nat.
Proof.
  intros Hreq Hnew Hshape H401.
  by_cases_of_run Hreq Hnew; simplify_eq/=; try done; cbn; split; lia.
Qed.

(** C4.  A call that ends in [httpx.ConnectTimeout] (a call on the
    client, or one made for the token inside the [try]) ends the whole
    [request]: it raises [APITimeoutError] with the message of the
    timeout, the timed-out call is the last thing it did, and it never
    slept, so the retry policy made no second attempt. *)
Theorem connect_timeout_fails_at_once (t : SyncTransport A) r t' new c m :
  request server method url kwargs t = (r, t') →
  calls t' = calls t ++ new →
  In c new →
  raised c = Some (Httpx (ConnectTimeout m)) →
  r = Raise (APITimeoutError m)
  ∧ last new = Some c
  ∧ sleeps new = []
  ∧ (length (requests new) ≤ 2)%nat.
Proof.
  intros Hreq Hnew Hin Hraised.
  by_cases_of_run Hreq Hnew; cbn in Hin; intuition; subst c;
    cbn in Hraised; simplify_eq; cbn; auto with lia.
Qed.

(** The same for the failures the decorator is meant to retry: a
    [ConnectError] or [ReadError] surfaces as [APIConnectionError] at
    once.  The [except] clause has renamed it before tenacity could see
    it. *)
Lemma transport_failure_surfaces_at_once (t : SyncTransport A) r t' new c h :
  request server method url kwargs t = (r, t') →
  calls t' = calls t ++ new →
  In c new →
  raised c = Some (Httpx h) →
  retry_if_exception_type (Httpx h) = true →
  r = Raise (APIConnectionError (str h))
  ∧ last new = Some c
  ∧ sleeps new = [].
Proof.
  intros Hreq Hnew Hin Hraised Hretry.
  by_cases_of_run Hreq Hnew; cbn in Hin; intuition; subst c;
    cbn in Hraised; simplify_eq; destruct h; by cbn.
Qed.

(** C5.  When the last thing [request] did was to receive a response
    (the first one, or the one after the 401-driven retry), that response
    decides the result by its status alone: from 400 on, [request] raises
    [APIResponseError] with that status and the body text; below 400 it
    returns the response itself. *)
Theorem final_response_classified (t : SyncTransport A) r t' new q resp :
  request server method url kwargs t = (r, t') →
  calls t' = calls t ++ new →
  last new = Some (ClientRequest q (Ok resp)) →
  (400 ≤ status_code resp → r = Raise (APIResponseError (status_code resp) (text resp)))
  ∧ (status_code resp < 400 → r = Ok resp).
Proof.
  intros Hreq Hnew Hlast.
  by_cases_of_run Hreq Hnew; cbn in Hlast; simplify_eq; unfold classify;
    (split; intros ?; [rewrite (Zle_imp_le_bool 400) | rewrite (proj2 (Z.leb_gt 400 _))]; done).
Qed.

End contract.

(** ** The contract at work *)

(** tenacity's loop does retry what reaches it: a function that raises
    [httpx.ConnectError] each time is run three times, with sleeps of 0.5 s
    and 0.6 s in between, and ends in [RetryError]. *)
Example retrying_gives_up_after_three :
  let server := side_effect [] (fails (ConnectError "connection reset")) in
  let q := outgoing "GET" test_url no_kwargs mock_config "test_token_12345" in
  let '(r, t) := retry (client_request server q) patched_transport in
  r = Raise (RetryError (Httpx (ConnectError "connection reset")))
  ∧ length (requests (calls t)) = 3%nat
  ∧ sleeps (calls t) = [500; 600].
Proof. vm_compute. repeat split. Qed.

(** C1 does not hold of the code.  With a client that answers every call
    with [httpx.ConnectError], [request] makes one call on the client,
    never sleeps, and raises [APIConnectionError] after that single
    attempt, where the claim has three attempts. *)
Theorem connect_reset_single_attempt :
  let server := side_effect [] (fails (ConnectError "connection reset")) in
  let '(r, t) := request server "GET" test_url no_kwargs patched_transport in
  r = Raise (APIConnectionError "connection reset")
  ∧ length (requests (calls t)) = 1%nat
  ∧ sleeps (calls t) = [].
Proof. vm_compute. repeat split. Qed.

(** C2 does not hold of the code.  A caller passes
    [headers={"X-Custom-Header": "v"}] and the first response is a 401:
    the first call carries the caller's header, the re-issued call does
    not (only [Partner-Id] and [Authorization] are left), where the claim
    has the caller's headers on every attempt. *)
Theorem retried_call_drops_caller_headers :
  let server := side_effect [responds 401 "Unauthorized" None] (responds 200 "ok" None) in
  let '(r, t) := request server "GET" test_url custom_headers patched_transport in
  (λ q, req_headers q !! "X-Custom-Header") <$> requests (calls t) = [Some "v"; None]
  ∧ (λ q, (map_to_list (req_headers q)).*1) <$> requests (calls t) =
      [ ["Authorization"; "X-Custom-Header"; "Partner-Id"];
        ["Authorization"; "Partner-Id"] ].
Proof. vm_compute. repeat split. Qed.

(* ===================================================================== *)
(** * The token cache                                                     *)
(* ===================================================================== *)

Section token_cache.
Variable token_endpoint : Server.

(** With the credentials in place, [token] is the cache where it holds
    and the exchange where it does not. *)
Lemma token_eq a now :
  is_Some (credentials (_cfg a)) →
  SiigoAuth_token token_endpoint (a, now) =
  match cached a now with
  | Some tok => (Ok tok, (a, now))
  | None => exchange token_endpoint (a, now)
  end.
Proof. intros [c Hc]. unfold SiigoAuth_token. by rewrite Hc. Qed.

(** A 200 whose body is an object without [access_token] makes the
    exchange fail with the synthetic 500, the cache as it was. *)
Lemma exchange_without_access_token a now u k p r m :
  let q := auth_request (_cfg a) u k in
  let reply := token_endpoint (length (posts a)) q in
  credentials (_cfg a) = Some (u, k, p) →
  outcome reply = Ok r →
  status_code r = 200 →
  body_json r = Some (JObj m) →
  m !! "access_token" = None →
  exchange token_endpoint (a, now) =
    (Raise (APIResponseError 500 no_access_token), (posted a q, now + elapsed reply)).
Proof.
  intros q reply Hcred Hout H200 Hbody Hkey. unfold exchange.
  rewrite Hcred. fold q. fold reply. rewrite Hout, H200.
  unfold json. rewrite Hbody. cbn. by rewrite Hkey.
Qed.

(** A cache with nothing to hand out still has nothing to hand out
    after an exchange that wrote nothing, now or later. *)
Lemma posted_still_empty a q now later :
  cached a now = None → now ≤ later → cached (posted a q) later = None.
Proof.
  unfold cached; cbn. destruct (_token a), (_exp_ts a) as [exp|]; try done.
  destruct (Z.ltb_spec now exp); [done|]. intros _ ?.
  by rewrite (proj2 (Z.ltb_ge later exp)) by lia.
Qed.

(** C6.  A token fetch answered by a 200 whose JSON body has no
    [access_token]: [token()] raises [APIResponseError] with the synthetic
    status 500 and a message containing "No access_token", and no token
    is cached: a cache that held nothing holds nothing, and there is no
    token to hand out from it now or later.  The exchange itself is on
    record. *)
Theorem token_without_access_token a now u k p r m :
  let q := auth_request (_cfg a) u k in
  credentials (_cfg a) = Some (u, k, p) →
  cached a now = None →
  outcome (token_endpoint (length (posts a)) q) = Ok r →
  status_code r = 200 →
  body_json r = Some (JObj m) →
  m !! "access_token" = None →
  ∃ message a' now',
    SiigoAuth_token token_endpoint (a, now) = (Raise (APIResponseError 500 message), (a', now'))
    ∧ contains "No access_token" message = true
    ∧ (_token a = None → _token a' = None)
    ∧ (∀ later, now ≤ later → cached a' later = None)
    ∧ posts a' = posts a ++ [q].
Proof.
  intros q Hcred Hcache Hout H200 Hbody Hkey.
  exists no_access_token, (posted a q),
    (now + elapsed (token_endpoint (length (posts a)) q)).
  rewrite token_eq, Hcache by (by rewrite Hcred).
  erewrite exchange_without_access_token by done.
  split; [done|]. split; [done|]. split; [done|]. split; [|done].
  intros later Hlater. by apply (posted_still_empty a q now).
Qed.

(** The forced refetch fails the same way. *)
Lemma fetch_without_access_token a now u k p r m :
  let q := auth_request (_cfg a) u k in
  let reply := token_endpoint (length (posts a)) q in
  credentials (_cfg a) = Some (u, k, p) →
  outcome reply = Ok r →
  status_code r = 200 →
  body_json r = Some (JObj m) →
  m !! "access_token" = None →
  SiigoAuth_fetch token_endpoint (a, now) =
    (Raise (APIResponseError 500 no_access_token), (posted a q, now + elapsed reply)).
Proof.
  intros. unfold SiigoAuth_fetch, mbind, M_bind.
  by erewrite exchange_without_access_token.
Qed.

(** C7.  A token cache constructed from a configuration without a
    username or without an access key: [token()] raises the configuration
    error (a [ValueError]) at once and hands back the object exactly as
    it was constructed, with no credential exchange on record: no call
    went out. *)
Theorem token_missing_credentials c now :
  username c = None ∨ access_key c = None →
  SiigoAuth_token token_endpoint (SiigoAuth_init c, now) =
    (Raise (ValueError credentials_required), (SiigoAuth_init c, now))
  ∧ posts (SiigoAuth_init c) = [].
Proof.
  intros Hmissing. split; [|done].
  unfold SiigoAuth_token, credentials; cbn.
  destruct Hmissing as [-> | ->]; [done|]. by destruct (username c).
Qed.

(** A token the cache holds is handed out as it is. *)
Lemma token_hits_cache a now tok :
  is_Some (credentials (_cfg a)) →
  cached a now = Some tok →
  SiigoAuth_token token_endpoint (a, now) = (Ok tok, (a, now)).
Proof. intros Hcred Hcache. by rewrite token_eq, Hcache. Qed.

Lemma cached_spec a now tok :
  cached a now = Some tok ↔
  _token a = Some tok ∧ (_exp_ts a = None ∨ ∃ exp, _exp_ts a = Some exp ∧ now < exp).
Proof.
  unfold cached. destruct (_token a) as [tok'|], (_exp_ts a) as [exp|].
  - destruct (Z.ltb_spec now exp); split.
    + intros [= ->]. eauto.
    + by intros [[= ->] _].
    + done.
    + intros [_ [|(exp' & [= <-] & ?)]]; [done|lia].
  - split; [intros [= ->]; eauto | by intros [[= ->] _]].
  - split; [done | by intros [? _]].
  - split; [done | by intros [? _]].
Qed.

(** C8.  A cached token that has no expiry, or whose expiry lies ahead
    of the clock, is what [token()] returns, and the object comes back
    unchanged: same token, same expiry, same record of credential
    exchanges, so no call went out, and the clock has not moved. *)
Theorem cached_token_reused a now tok :
  is_Some (credentials (_cfg a)) →
  _token a = Some tok →
  _exp_ts a = None ∨ (∃ exp, _exp_ts a = Some exp ∧ now < exp) →
  SiigoAuth_token token_endpoint (a, now) = (Ok tok, (a, now)).
Proof.
  intros Hcred Htok Hexp. apply token_hits_cache; [done|].
  by apply cached_spec.
Qed.

(** A first [token()] answered with a token and [expires_in = 3600], and
    a second one less than 3600 seconds after the answer came in: both
    return that token, and one credential exchange was made in all. *)
Lemma one_exchange_within_expiry c now u k p r m tok later :
  let a := SiigoAuth_init c in
  let q := auth_request c u k in
  let reply := token_endpoint 0%nat q in
  credentials c = Some (u, k, p) →
  outcome reply = Ok r →
  status_code r = 200 →
  body_json r = Some (JObj m) →
  m !! "access_token" = Some (JStr tok) →
  m !! "expires_in" = Some (JNum 3600) →
  later < now + elapsed reply + 1000 * 3600 →
  ∃ a1,
    SiigoAuth_token token_endpoint (a, now) = (Ok tok, (a1, now + elapsed reply))
    ∧ SiigoAuth_token token_endpoint (a1, later) = (Ok tok, (a1, later))
    ∧ posts a1 = [q].
Proof.
  intros a q reply Hcred Hout H200 Hbody Htok Hexp Hlater.
  eexists. split; [|split].
  - rewrite token_eq by (by cbn; rewrite Hcred).
    unfold exchange, cached, a, SiigoAuth_init.
    cbn [_cfg _token _exp_ts posts length]. rewrite Hcred.
    fold q. fold reply.
    rewrite Hout, H200. unfold json. rewrite Hbody. cbn. rewrite Htok, Hexp.
    reflexivity.
  - apply token_hits_cache; [by cbn; rewrite Hcred|]. unfold cached; cbn.
    by rewrite (proj2 (Z.ltb_lt _ _)).
  - reflexivity.
Qed.

End token_cache.

(* ===================================================================== *)
(** * The resources                                                       *)
(* ===================================================================== *)

(** The line of [list] reads as the claim says. *)
Lemma list_items_as_claimed m :
  list_items (JObj m) = Ok (items_as_claimed m).
Proof.
  unfold list_items, items_as_claimed, present_and_truthy, py_or, dict_get.
  destruct (m !! "results") as [v|]; cbn.
  - destruct (truthy v) eqn:Hv; cbn; [by rewrite Hv|].
    destruct (m !! "data") as [w|]; cbn; [|done].
    by destruct (truthy w) eqn:Hw; rewrite ?Hw.
  - destruct (m !! "data") as [w|]; cbn; [|done].
    by destruct (truthy w) eqn:Hw; rewrite ?Hw.
Qed.

Section customers_facts.
Variable Customer : Type.
Variable validate_customer : JSON → option Customer.
Variable backend : Backend.
Variable base_url_ : string.

(** C9.  When the body of the response to [list] is a JSON object, the
    items handed to validation are the value under ["results"] if that
    key is present with a truthy value, otherwise the value under
    ["data"] on the same terms, otherwise the empty list; and a body
    with neither key makes [list] yield nothing, without an error. *)
Theorem list_reads_results_then_data created_start log r m :
  let call := {| inv_method := "GET"; inv_url := customers_base base_url_;
                 inv_kwargs := {| kw_headers := None;
                                  kw_params := Some (list_params created_start);
                                  kw_json := None |} |} in
  backend (length log) call = Ok r →
  body_json r = Some (JObj m) →
  customers_list Customer validate_customer backend base_url_ created_start log =
    (validate_customers Customer validate_customer (items_as_claimed m), log ++ [call])
  ∧ (m !! "results" = None → m !! "data" = None →
     customers_list Customer validate_customer backend base_url_ created_start log =
       (Ok [], log ++ [call])).
Proof.
  intros call Hreply Hbody.
  assert (customers_list Customer validate_customer backend base_url_ created_start log =
            (validate_customers Customer validate_customer (items_as_claimed m),
             log ++ [call])) as Hlist.
  { unfold customers_list, _request, mbind, M_bind, lift.
    fold call. rewrite Hreply. unfold json. rewrite Hbody.
    by rewrite list_items_as_claimed. }
  split; [done|].
  intros Hresults Hdata. rewrite Hlist.
  unfold items_as_claimed, present_and_truthy. by rewrite Hresults, Hdata.
Qed.

End customers_facts.

Section webhooks_facts.
Variable Webhook : Type.
Variable validate_webhook : JSON → option Webhook.
Variable backend : Backend.
Variable base_url_ : string.

Lemma check_arguments_ok webhook_type url :
  is_Some (webhook_type_map !! webhook_type) →
  startswith url "http" = true →
  check_arguments webhook_type url = Ok ().
Proof.
  intros Htype Hurl. unfold check_arguments.
  rewrite bool_decide_eq_true_2 by done. cbn [negb].
  rewrite Hurl. by destruct url.
Qed.

(** [get_by_type] calls [_request] once, whatever comes of it. *)
Lemma get_by_type_one_call webhook_type log :
  (get_by_type Webhook validate_webhook backend base_url_ webhook_type log).2 =
  log ++ [ {| inv_method := "GET"; inv_url := webhooks_base base_url_;
              inv_kwargs := no_kwargs |} ].
Proof.
  unfold get_by_type, _request, mbind, M_bind, lift, mret, M_ret.
  destruct (backend _ _) as [r|e]; [|done].
  destruct (json r) as [data|e]; [|done].
  destruct (find_webhook webhook_type data) as [w|e]; [|done].
  by destruct (validated_or_none Webhook validate_webhook w).
Qed.

(** C10, amended.  For a webhook type of [webhook_type_map] and a URL starting
    with "http", [upsert] calls [_request] exactly once, with the GET of
    [get_by_type]: no POST, no PUT, nothing that would create or update.
    And it has nothing to return: when the lookup comes back, with a
    webhook or without, [upsert] returns [None]; when the lookup raises,
    so does [upsert]. *)
Theorem upsert_only_looks_up webhook_type url log :
  is_Some (webhook_type_map !! webhook_type) →
  startswith url "http" = true →
  let lookup := get_by_type Webhook validate_webhook backend base_url_ webhook_type log in
  let result := upsert Webhook validate_webhook backend base_url_ webhook_type url log in
  result.2 = log ++ [ {| inv_method := "GET"; inv_url := webhooks_base base_url_;
                         inv_kwargs := no_kwargs |} ]
  ∧ result.1 = match lookup.1 with
               | Ok _ => Ok None
               | Raise e => Raise e
               end.
Proof.
  intros Htype Hurl lookup result. subst lookup result.
  unfold upsert, mbind, M_bind, mret, M_ret.
  rewrite check_arguments_ok by done. unfold lift.
  pose proof (get_by_type_one_call webhook_type log) as Hlog.
  destruct (get_by_type Webhook validate_webhook backend base_url_ webhook_type log)
    as [[w|e] log']; cbn in *; by subst.
Qed.

End webhooks_facts.

(* ===================================================================== *)
(** * The theorems at the inputs of the test-suite                        *)
(* ===================================================================== *)

(** [test_sync_transport_request_401_retry], with the token owner of the
    specification in place of the patched one: the cached token is
    [old_token], the first response is a 401, the token endpoint hands out
    [new_token], the re-issued call goes out with [Bearer new_token] and
    its 200 is returned. *)
Lemma unauthorized_refreshes_once_witness :
  let endpoint := side_effect [] (token_reply "new_token" 3600) in
  let server := side_effect [responds 401 "Unauthorized" None] (responds 200 "ok" None) in
  let t := SyncTransport_init mock_config (holding "old_token" None 1) 0 in
  let q1 := outgoing "GET" test_url custom_headers mock_config "old_token" in
  let q2 := outgoing "GET" test_url (pop_headers custom_headers).2 mock_config "new_token" in
  let new := [AuthToken (Ok "old_token"); ClientRequest q1 (Ok mock_response_401);
              AuthFetch (Ok ()); AuthToken (Ok "new_token");
              ClientRequest q2 (Ok {| status_code := 200; text := "ok"; body_json := None |})] in
  request (Auth0 := SiigoAuth_Auth endpoint) server "GET" test_url custom_headers t =
    (Ok {| status_code := 200; text := "ok"; body_json := None |},
     after t (holding "new_token" (Some 3600000) 2) 0 new)
  ∧ fetches new = 1%nat
  ∧ requests new = [q1; q2]
  ∧ req_headers q2 !! "Authorization" = Some "Bearer new_token".
Proof.
  intros endpoint server t q1 q2 new.
  pose proof (unauthorized_refreshes_once (Auth0 := SiigoAuth_Auth endpoint)
                server "GET" test_url custom_headers t
                "old_token" (holding "old_token" None 1) 0 mock_response_401
                (holding "new_token" (Some 3600000) 2) 0
                "new_token" (holding "new_token" (Some 3600000) 2) 0
                eq_refl eq_refl eq_refl eq_refl eq_refl) as (Hreq & Hf & Hq & Hh & _).
  exact (conj Hreq (conj Hf (conj Hq Hh))).
Defined.

(** [test_sync_transport_request_connection_timeout]: the client times
    out on connect, [request] raises [APITimeoutError] after that one
    call. *)
Lemma connect_timeout_fails_at_once_witness :
  let server := side_effect [] (fails (ConnectTimeout "Connection timeout")) in
  let run := request server "GET" test_url no_kwargs patched_transport in
  let new := [AuthToken (Ok "test_token_12345"); connection_timeout] in
  (calls run.2 = calls patched_transport ++ new
   ∧ In connection_timeout new
   ∧ raised connection_timeout = Some (Httpx (ConnectTimeout "Connection timeout")))
  ∧ run.1 = Raise (APITimeoutError "Connection timeout")
  ∧ last new = Some connection_timeout
  ∧ sleeps new = []
  ∧ (length (requests new) ≤ 2)%nat.
Proof.
  intros server run new.
  assert (calls run.2 = calls patched_transport ++ new) as Hnew
    by (vm_compute; reflexivity).
  assert (In connection_timeout new) as Hin by (right; left; reflexivity).
  split; [exact (conj Hnew (conj Hin eq_refl))|].
  apply (connect_timeout_fails_at_once server "GET" test_url no_kwargs
           patched_transport run.1 run.2 new connection_timeout "Connection timeout");
    [apply surjective_pairing | exact Hnew | exact Hin | reflexivity].
Defined.

(** [test_sync_transport_request_400_error] and its neighbour: a 400
    with body "Bad Request" raises [APIResponseError(400, "Bad Request")],
    a 399 is returned. *)
Lemma final_response_classified_witness :
  let run400 := request (respond_with 400 "Bad Request") "GET" test_url no_kwargs patched_transport in
  let run399 := request (respond_with 399 "") "GET" test_url no_kwargs patched_transport in
  (calls run400.2 = calls patched_transport ++ answered 400 "Bad Request"
   ∧ calls run399.2 = calls patched_transport ++ answered 399 "")
  ∧ run400.1 = Raise (APIResponseError 400 "Bad Request")
  ∧ run399.1 = Ok {| status_code := 399; text := ""; body_json := None |}.
Proof.
  intros run400 run399.
  assert (calls run400.2 = calls patched_transport ++ answered 400 "Bad Request") as H400
    by (vm_compute; reflexivity).
  assert (calls run399.2 = calls patched_transport ++ answered 399 "") as H399
    by (vm_compute; reflexivity).
  split; [exact (conj H400 H399)|]. split.
  - apply (final_response_classified (respond_with 400 "Bad Request") "GET" test_url
             no_kwargs patched_transport run400.1 run400.2 _ plain_request _
             (surjective_pairing run400) H400 eq_refl).
    cbn. lia.
  - apply (final_response_classified (respond_with 399 "") "GET" test_url
             no_kwargs patched_transport run399.1 run399.2 _ plain_request _
             (surjective_pairing run399) H399 eq_refl).
    cbn. lia.
Defined.

(** [test_siigo_auth_no_token_in_response]. *)
Lemma token_without_access_token_witness :
  let a := SiigoAuth_init mock_config in
  (credentials (_cfg a) = Some ("test_user", "test_key", "test_partner")
   ∧ cached a 0 = None)
  ∧ ∃ message a' now',
      SiigoAuth_token no_token_endpoint (a, 0) =
        (Raise (APIResponseError 500 message), (a', now'))
      ∧ contains "No access_token" message = true
      ∧ (_token a = None → _token a' = None)
      ∧ (∀ later, 0 ≤ later → cached a' later = None)
      ∧ posts a' = posts a ++ [mock_auth_post].
Proof.
  intros a. split; [done|].
  by apply (token_without_access_token no_token_endpoint a 0
              "test_user" "test_key" "test_partner"
              {| status_code := 200; text := "";
                 body_json := Some (JObj {[ "token_type" := JStr "Bearer" ]}) |}
              {[ "token_type" := JStr "Bearer" ]}).
Defined.

(** [test_siigo_auth_missing_credentials]. *)
Lemma token_missing_credentials_witness :
  let c := config_without_credentials in
  (username c = None ∨ access_key c = None)
  ∧ SiigoAuth_token no_token_endpoint (SiigoAuth_init c, 0) =
      (Raise (ValueError credentials_required), (SiigoAuth_init c, 0))
  ∧ posts (SiigoAuth_init c) = [].
Proof.
  intros c.
  assert (username c = None ∨ access_key c = None) as H by (left; reflexivity).
  split; [exact H|].
  exact (token_missing_credentials no_token_endpoint c 0 H).
Defined.

(** [test_siigo_auth_token_caching]: the token of [mock_auth_response],
    fetched at clock 0 with [expires_in = 3600], is handed out again one
    millisecond before the hour is over, and there is one credential
    exchange on record. *)
Lemma cached_token_reused_witness :
  let endpoint := side_effect [] (token_reply "test_token_12345" 3600) in
  let a1 := holding "test_token_12345" (Some 3600000) 1 in
  (SiigoAuth_token endpoint (SiigoAuth_init mock_config, 0) = (Ok "test_token_12345", (a1, 0))
   ∧ is_Some (credentials (_cfg a1))
   ∧ _token a1 = Some "test_token_12345"
   ∧ (_exp_ts a1 = None ∨ (∃ exp, _exp_ts a1 = Some exp ∧ 3599999 < exp)))
  ∧ SiigoAuth_token endpoint (a1, 3599999) = (Ok "test_token_12345", (a1, 3599999))
  ∧ length (posts a1) = 1%nat.
Proof.
  intros endpoint a1.
  assert (is_Some (credentials (_cfg a1))) as Hcred by (eexists; reflexivity).
  assert (_exp_ts a1 = None ∨ (∃ exp, _exp_ts a1 = Some exp ∧ 3599999 < exp)) as Hexp
    by (right; exists 3600000; split; [reflexivity | lia]).
  split; [split; [vm_compute; reflexivity | done] |].
  split; [|reflexivity].
  exact (cached_token_reused endpoint a1 3599999 "test_token_12345" Hcred eq_refl Hexp).
Defined.

(** [list] on a body with neither key, and on [{"data": [...]}] with
    items that validate as they are. *)
Lemma list_reads_results_then_data_witness :
  let empty := answers (JObj {[ "total" := JNum 0 ]}) in
  (empty 0%nat list_call = Ok {| status_code := 200; text := "";
                                 body_json := Some (JObj {[ "total" := JNum 0 ]}) |})
  ∧ customers_list JSON Some empty "https://api.test.siigo.com" None [] = (Ok [], [list_call]).
Proof.
  intros empty. split; [reflexivity|].
  refine (proj2 (list_reads_results_then_data JSON Some empty "https://api.test.siigo.com"
                   None [] _ {[ "total" := JNum 0 ]} eq_refl eq_refl) _ _);
    reflexivity.
Defined.

(** [upsert] where a webhook of the type exists: one GET, and [None]. *)
Lemma upsert_only_looks_up_witness :
  let backend := answers (JArr [one_webhook]) in
  (is_Some (webhook_type_map !! "PRODUCTS_CREATE")
   ∧ startswith "https://example.com/hook" "http" = true)
  ∧ get_by_type JSON Some backend "https://api.test.siigo.com" "PRODUCTS_CREATE" [] =
      (Ok (Some one_webhook), [lookup_call])
  ∧ upsert JSON Some backend "https://api.test.siigo.com"
      "PRODUCTS_CREATE" "https://example.com/hook" [] = (Ok None, [lookup_call]).
Proof.
  intros backend.
  assert (is_Some (webhook_type_map !! "PRODUCTS_CREATE")) as Htype by (eexists; reflexivity).
  assert (startswith "https://example.com/hook" "http" = true) as Hurl by reflexivity.
  split; [done|]. split; [vm_compute; reflexivity|].
  destruct (upsert_only_looks_up JSON Some backend "https://api.test.siigo.com"
              "PRODUCTS_CREATE" "https://example.com/hook" [] Htype Hurl) as [Hlog Hres].
  rewrite (surjective_pairing (upsert _ _ _ _ _ _ _)), Hlog, Hres.
  vm_compute. reflexivity.
Defined.

(* ===================================================================== *)
(** * Small cases                                                         *)
(* ===================================================================== *)

Example wait_exponential_values :
  wait_exponential <$> [1; 2; 3; 4; 5; 6]%nat = [500; 600; 1200; 2400; 4800; 5000].
Proof. reflexivity. Qed.

(** [test_sync_transport_headers_without_partner_id]. *)
Example headers_without_partner_id :
  map_to_list (own_headers config_without_credentials "test_token_12345") =
  [("Authorization", "Bearer test_token_12345"); ("Partner-Id", "")].
Proof. vm_compute. reflexivity. Qed.

(** [test_sync_transport_request_with_custom_headers]. *)
Example request_with_custom_headers :
  let server := respond_with 200 "" in
  let '(_, t) := request server "GET" test_url custom_headers patched_transport in
  (λ q, map_to_list (req_headers q)) <$> requests (calls t) =
  [[("Authorization", "Bearer test_token_12345"); ("X-Custom-Header", "v");
    ("Partner-Id", "test_partner")]].
Proof. vm_compute. reflexivity. Qed.

(** A caller who passes its own [Authorization] overrides the
    transport's. *)
Example caller_header_wins :
  merge (own_headers mock_config "test_token_12345") {[ "Authorization" := "Basic abc" ]}
    !! "Authorization" = Some "Basic abc".
Proof. vm_compute. reflexivity. Qed.

(** The expiry check is strict: at the expiry itself the token is no
    longer handed out. *)
Example cached_at_expiry :
  cached (holding "old_token" (Some 1000) 1) 999 = Some "old_token"
  ∧ cached (holding "old_token" (Some 1000) 1) 1000 = None.
Proof. split; reflexivity. Qed.

(** [test_siigo_auth_token_expiration]: [expires_in = 1], a second
    [token()] 1.1 s later. *)
Example token_expiration :
  let endpoint := side_effect [token_reply "old_token" 1] (token_reply "new_token" 3600) in
  let '(r1, (a1, _)) := SiigoAuth_token endpoint (SiigoAuth_init mock_config, 0) in
  let '(r2, (a2, _)) := SiigoAuth_token endpoint (a1, 1100) in
  r1 = Ok "old_token" ∧ r2 = Ok "new_token" ∧ length (posts a2) = 2%nat.
Proof. vm_compute. repeat split. Qed.

(** [test_siigo_auth_http_error]. *)
Example token_http_error :
  let endpoint := side_effect [] (responds 401 "Unauthorized" None) in
  (SiigoAuth_token endpoint (SiigoAuth_init mock_config, 0)).1 =
  Raise (APIResponseError 401 "Unauthorized").
Proof. vm_compute. reflexivity. Qed.

Example list_items_prefers_results :
  list_items (JObj (<[ "results" := JArr [JNum 1] ]> {[ "data" := JArr [JNum 2] ]})) =
  Ok (JArr [JNum 1]).
Proof. vm_compute. reflexivity. Qed.

Example list_items_falls_back_to_data :
  list_items (JObj (<[ "results" := JArr [] ]> {[ "data" := JArr [JNum 2] ]})) =
  Ok (JArr [JNum 2]).
Proof. vm_compute. reflexivity. Qed.

Example list_items_neither :
  list_items (JObj {[ "total" := JNum 0 ]}) = Ok (JArr []).
Proof. vm_compute. reflexivity. Qed.

(** [create], for contrast with [upsert]: it does send a POST. *)
Example create_posts :
  let '(_, log) := create JSON Some (answers one_webhook) "https://api.test.siigo.com"
                     "PRODUCTS_CREATE" "https://example.com/hook" [] in
  inv_method <$> log = ["POST"].
Proof. vm_compute. reflexivity. Qed.

Example upsert_rejects_unknown_type :
  (upsert JSON Some (answers (JArr [])) "https://api.test.siigo.com"
     "ORDERS_CREATE" "https://example.com/hook" []) =
  (Raise (ValueError "Invalid webhook type: ORDERS_CREATE"), []).
Proof. vm_compute. reflexivity. Qed.

Example upsert_rejects_url :
  (upsert JSON Some (answers (JArr [])) "https://api.test.siigo.com"
     "PRODUCTS_CREATE" "ftp://example.com" []) =
  (Raise (ValueError invalid_url), []).
Proof. vm_compute. reflexivity. Qed.

(* ===================================================================== *)
(** * The 401 path and [upsert], as they are                              *)
(* ===================================================================== *)

(** When the forced refetch fails, nothing is re-issued: on
    [refetch_fails] the first response is a 401, [_fetch] raises, and the
    client has been called once, not twice.  So it is not true that every
    request whose first response is a 401 re-issues the call. *)
Lemma refetch_failure_reissues_nothing :
  ¬ always_reissues_once unauthorized_then_ok "GET" test_url no_kwargs refetch_fails.
Proof.
  intros Hclaim.
  pose (run := request unauthorized_then_ok "GET" test_url no_kwargs refetch_fails).
  assert (calls run.2 = calls refetch_fails ++ unrefreshed_calls) as Hnew
    by (vm_compute; reflexivity).
  destruct (Hclaim run.1 run.2 unrefreshed_calls "test_token_12345" plain_request
              mock_response_401 [AuthFetch (Raise endpoint_down)]
              (surjective_pairing run) Hnew eq_refl eq_refl) as [_ Htwo].
  vm_compute in Htwo. discriminate.
Qed.

Lemma reissued_authorization method url kwargs c tok :
  req_headers (outgoing method url (pop_headers kwargs).2 c tok) !! "Authorization" =
  Some ("Bearer " +:+ tok).
Proof. by rewrite outgoing_after_pop, own_headers_authorization. Qed.

Section refresh.
Context {A : Type} `{!Auth A}.
Variable server : Server.
Variables (method url : string) (kwargs : Kwargs).

(** C3, amended.  When the first call on the client comes back with
    status 401, [request] calls [_fetch] exactly once and the client at
    most once more, and the run ends in one of three ways.  Either the
    refetch and the token read that rebuilds the headers go through:
    then exactly one call is re-issued, it carries [Authorization:
    Bearer] followed by the token read after the refetch, and what it
    yields is final, a response being classified by its own status (a
    second 401 is an [APIResponseError] with status 401, there is no
    third call).  Or the refetch raises, or that token read raises: then
    no call is re-issued and the exception comes out. *)
Theorem unauthorized_refresh_cases (t : SyncTransport A) r t' new tok1 q1 resp1 rest :
  request server method url kwargs t = (r, t') →
  calls t' = calls t ++ new →
  new = AuthToken (Ok tok1) :: ClientRequest q1 (Ok resp1) :: rest →
  status_code resp1 = 401 →
  fetches new = 1%nat
  ∧ (length (requests new) ≤ 2)%nat
  ∧ ((∃ tok2 q2 o2,
        rest = [AuthFetch (Ok ()); AuthToken (Ok tok2); ClientRequest q2 o2]
        ∧ requests new = [q1; q2]
        ∧ req_headers q2 !! "Authorization" = Some ("Bearer " +:+ tok2)
        ∧ r = match o2 with
              | Ok resp2 => classify resp2
              | Raise e => Raise (surfaced e)
              end
        ∧ ∀ resp2, o2 = Ok resp2 → status_code resp2 = 401 →
            r = Raise (APIResponseError 401 (text resp2)))
     ∨ (∃ e, rest = [AuthFetch (Raise e)]
             ∧ requests new = [q1]
             ∧ r = Raise (surfaced e))
     ∨ (∃ e, rest = [AuthFetch (Ok ()); AuthToken (Raise e)]
             ∧ requests new = [q1]
             ∧ r = Raise (surfaced e))).
Proof.
  intros Hreq Hnew Hshape H401.
  by_cases_of_run Hreq Hnew; simplify_eq; try done.
  - split; [done|]. split; [cbn; lia|]. right; left. eauto.
  - split; [done|]. split; [cbn; lia|]. right; right. eauto.
  - split; [done|]. split; [cbn; lia|]. left.
    eexists _, _, _. split; [done|]. split; [done|]. split.
    { apply reissued_authorization. }
    split; [done|]. intros resp2 [=].
  - split; [done|]. split; [cbn; lia|]. left.
    eexists _, _, _. split; [done|]. split; [done|]. split.
    { apply reissued_authorization. }
    split; [done|]. intros resp2' [= <-] Hagain. unfold classify. by rewrite Hagain.
Qed.

End refresh.

(** [test_sync_transport_request_401_retry], with the token owner of the
    specification in place of the patched one: the cached token is
    [old_token], the first response is a 401, the token endpoint hands out
    [new_token], and the run is of the first kind, the re-issued call
    going out with [Bearer new_token]. *)
Lemma unauthorized_refresh_cases_witness :
  let endpoint := side_effect [] (token_reply "new_token" 3600) in
  let t := SyncTransport_init mock_config (holding "old_token" None 1) 0 in
  let run := request (Auth0 := SiigoAuth_Auth endpoint) unauthorized_then_ok
               "GET" test_url custom_headers t in
  let q1 := outgoing "GET" test_url custom_headers mock_config "old_token" in
  let q2 := outgoing "GET" test_url (pop_headers custom_headers).2 mock_config "new_token" in
  let rest := [AuthFetch (Ok ()); AuthToken (Ok "new_token");
               ClientRequest q2 (Ok ok_response)] in
  let new := AuthToken (Ok "old_token") :: ClientRequest q1 (Ok mock_response_401) :: rest in
  (calls run.2 = calls t ++ new ∧ status_code mock_response_401 = 401)
  ∧ run.1 = Ok ok_response
  ∧ fetches new = 1%nat
  ∧ (length (requests new) ≤ 2)%nat
  ∧ ((∃ tok2 q2' o2,
        rest = [AuthFetch (Ok ()); AuthToken (Ok tok2); ClientRequest q2' o2]
        ∧ requests new = [q1; q2']
        ∧ req_headers q2' !! "Authorization" = Some ("Bearer " +:+ tok2)
        ∧ run.1 = match o2 with
                  | Ok resp2 => classify resp2
                  | Raise e => Raise (surfaced e)
                  end
        ∧ ∀ resp2, o2 = Ok resp2 → status_code resp2 = 401 →
            run.1 = Raise (APIResponseError 401 (text resp2)))
     ∨ (∃ e, rest = [AuthFetch (Raise e)]
             ∧ requests new = [q1]
             ∧ run.1 = Raise (surfaced e))
     ∨ (∃ e, rest = [AuthFetch (Ok ()); AuthToken (Raise e)]
             ∧ requests new = [q1]
             ∧ run.1 = Raise (surfaced e))).
Proof.
  intros endpoint t run q1 q2 rest new.
  assert (calls run.2 = calls t ++ new) as Hnew by (vm_compute; reflexivity).
  assert (run.1 = Ok ok_response) as Hres by (vm_compute; reflexivity).
  split; [by split|]. split; [exact Hres|].
  exact (unauthorized_refresh_cases (Auth0 := SiigoAuth_Auth endpoint)
           unauthorized_then_ok "GET" test_url custom_headers t run.1 run.2 new
           "old_token" q1 mock_response_401 rest
           (surjective_pairing run) Hnew eq_refl eq_refl).
Defined.

(** [upsert] does not always return [None]: it raises when its lookup
    raises, be it the request that fails or the webhook found that does
    not validate. *)
Lemma upsert_raises_with_lookup :
  ¬ upsert_always_returns_none JSON Some server_error test_base
  ∧ ¬ upsert_always_returns_none JSON rejects_all (answers (JArr [one_webhook])) test_base.
Proof.
  assert (is_Some (webhook_type_map !! "PRODUCTS_CREATE")) as Htype by (eexists; reflexivity).
  split; intros Hclaim;
    specialize (Hclaim "PRODUCTS_CREATE" "https://example.com/hook" [] Htype eq_refl);
    vm_compute in Hclaim; discriminate.
Qed.

(** What [upsert] does on those two inputs. *)
Example upsert_on_failing_lookups :
  upsert JSON Some server_error test_base "PRODUCTS_CREATE" "https://example.com/hook" [] =
    (Raise (APIResponseError 500 "Internal Server Error"), [lookup_call])
  ∧ upsert JSON rejects_all (answers (JArr [one_webhook])) test_base
      "PRODUCTS_CREATE" "https://example.com/hook" [] =
    (Raise (ValidationError "Webhook"), [lookup_call]).
Proof. split; vm_compute; reflexivity. Qed.

(* ===================================================================== *)
(** * More about [request]                                                *)
(* ===================================================================== *)

Lemma surfaced_not_httpx e h : surfaced e ≠ Httpx h.
Proof. by destruct e as [[]| | | | | | | | | |]. Qed.

Lemma classify_raises resp e :
  classify resp = Raise e →
  e = APIResponseError (status_code resp) (text resp) ∧ 400 ≤ status_code resp.
Proof.
  unfold classify. destruct (Z.leb_spec 400 (status_code resp)); [|done].
  by intros [= <-].
Qed.

Lemma classify_returns resp resp' :
  classify resp = Ok resp' → resp' = resp ∧ status_code resp < 400.
Proof.
  unfold classify. destruct (Z.leb_spec 400 (status_code resp)); [done|].
  by intros [= <-].
Qed.

Section more_contract.
Context {A : Type} `{!Auth A}.
Variable server : Server.
Variables (method url : string) (kwargs : Kwargs).

(** X1.  One [request] does a bounded amount of work: at most two calls
    on the client, at most one forced refetch, at most five calls in
    all, and no sleep. *)
Theorem request_effects_bounded (t : SyncTransport A) r t' new :
  request server method url kwargs t = (r, t') →
  calls t' = calls t ++ new →
  (length (requests new) ≤ 2)%nat
  ∧ (fetches new ≤ 1)%nat
  ∧ (length new ≤ 5)%nat
  ∧ sleeps new = [].
Proof.
  intros Hreq Hnew.
  by_cases_of_run Hreq Hnew; cbn; repeat split; lia.
Qed.

(** X2.  No httpx exception leaves [request], whoever raised it inside
    the [try] (the client, or the token owner): what comes out is one of
    the library's own errors, or an exception of the token owner that is
    no httpx error. *)
Theorem request_never_raises_httpx (t : SyncTransport A) e t' h :
  request server method url kwargs t = (Raise e, t') →
  e ≠ Httpx h.
Proof.
  intros Hreq%request_run.
  inversion Hreq; subst;
    first [ apply surfaced_not_httpx
          | match goal with
            | H : classify _ = Raise _ |- _ => apply classify_raises in H as [-> _]
            | H : Raise _ = classify _ |- _ =>
                symmetry in H; apply classify_raises in H as [-> _]
            end; done ].
Qed.

(** X3.  A first response whose status is not 401 (a 403 or a 500 as
    much as a 200) is final: one call on the client, no refetch, and the
    response classified by its status. *)
Theorem other_status_is_final (t : SyncTransport A) tok a1 c1 resp :
  let q1 := outgoing method url kwargs (cfg t) tok in
  let reply1 := server (length (requests (calls t))) q1 in
  let new := [AuthToken (Ok tok); ClientRequest q1 (Ok resp)] in
  token (auth t, clock t) = (Ok tok, (a1, c1)) →
  outcome reply1 = Ok resp →
  status_code resp ≠ 401 →
  request server method url kwargs t =
    (classify resp, after t a1 (c1 + elapsed reply1) new)
  ∧ requests new = [q1]
  ∧ fetches new = 0%nat.
Proof.
  intros q1 reply1 new Htok Hout Hstatus. split; [|done].
  rewrite request_undecorated, request_fn_eq, Htok. cbv zeta.
  fold q1 reply1. rewrite Hout.
  by rewrite (proj2 (Z.eqb_neq _ _) Hstatus).
Qed.

(** X4.  When the token cannot be had, nothing is sent: [request] makes
    no call on the client and raises what [token()] raised, an httpx
    error renamed by the [except] clauses, anything else as it is. *)
Theorem no_token_no_call (t : SyncTransport A) e a1 c1 :
  token (auth t, clock t) = (Raise e, (a1, c1)) →
  request server method url kwargs t =
    (Raise (surfaced e), after t a1 c1 [AuthToken (Raise e)])
  ∧ requests [AuthToken (Raise e)] = []
  ∧ ((∀ h, e ≠ Httpx h) → surfaced e = e).
Proof.
  intros Htok. split; [|split; [done|]].
  - by rewrite request_undecorated, request_fn_eq, Htok.
  - intros Hno. destruct e as [h| | | | | | | | | |]; try done.
    by destruct (Hno h).
Qed.

(** X5.  When the forced refetch after a 401 raises, the request is not
    re-issued: the client has been called once, and what [_fetch] raised
    comes out of [request] (renamed if it is an httpx error). *)
Theorem failed_refetch_is_final (t : SyncTransport A) tok a1 c1 resp1 e a2 c2 :
  let q1 := outgoing method url kwargs (cfg t) tok in
  let reply1 := server (length (requests (calls t))) q1 in
  let new := [AuthToken (Ok tok); ClientRequest q1 (Ok resp1); AuthFetch (Raise e)] in
  token (auth t, clock t) = (Ok tok, (a1, c1)) →
  outcome reply1 = Ok resp1 →
  status_code resp1 = 401 →
  _fetch (a1, c1 + elapsed reply1) = (Raise e, (a2, c2)) →
  request server method url kwargs t = (Raise (surfaced e), after t a2 c2 new)
  ∧ requests new = [q1].
Proof.
  intros q1 reply1 new Htok Hout H401 Hfetch. split; [|done].
  rewrite request_undecorated, request_fn_eq, Htok. cbv zeta.
  fold q1 reply1. rewrite Hout, H401. cbn [Z.eqb Pos.eqb].
  by rewrite Hfetch.
Qed.

(** X6.  Every httpx error other than [ConnectTimeout] (a read timeout
    as much as a refused connection) comes out as [APIConnectionError]
    carrying the error's message, and the call that raised it is the last
    thing [request] did. *)
Theorem httpx_error_becomes_connection_error (t : SyncTransport A) r t' new c h :
  request server method url kwargs t = (r, t') →
  calls t' = calls t ++ new →
  In c new →
  raised c = Some (Httpx h) →
  (∀ m, h ≠ ConnectTimeout m) →
  r = Raise (APIConnectionError (str h)) ∧ last new = Some c.
Proof.
  intros Hreq Hnew Hin Hraised Hother.
  by_cases_of_run Hreq Hnew; cbn in Hin; intuition; subst c;
    cbn in Hraised; simplify_eq; (destruct h; [by edestruct Hother|by cbn..]).
Qed.

(** X7.  Whatever [request] sends, first call or re-issued one, goes to
    the method and URL it was given, with the caller's [params] and
    [json] untouched. *)
Theorem calls_carry_the_arguments (t : SyncTransport A) r t' new q :
  request server method url kwargs t = (r, t') →
  calls t' = calls t ++ new →
  In q (requests new) →
  req_method q = method
  ∧ req_url q = url
  ∧ req_params q = kw_params kwargs
  ∧ req_json q = kw_json kwargs.
Proof.
  intros Hreq Hnew Hin.
  by_cases_of_run Hreq Hnew; cbn in Hin; intuition; by subst q.
Qed.

(** X8.  The headers of the first call of a [request]: under every
    name the caller passed, the caller's value; otherwise
    [Authorization] is [Bearer] and the token just read, [Partner-Id] is
    the configured partner id (empty when there is none), and no other
    name is present. *)
Theorem first_call_headers (t : SyncTransport A) r t' tok q1 o rest k :
  request server method url kwargs t = (r, t') →
  calls t' = calls t ++ AuthToken (Ok tok) :: ClientRequest q1 o :: rest →
  req_headers q1 !! k =
    match default ∅ (kw_headers kwargs) !! k with
    | Some v => Some v
    | None =>
        if decide (k = "Authorization") then Some ("Bearer " +:+ tok)
        else if decide (k = "Partner-Id") then Some (str_or (partner_id (cfg t)) "")
        else None
    end.
Proof.
  intros Hreq Hnew.
  assert (q1 = outgoing method url kwargs (cfg t) tok) as ->.
  { by_cases_of_run Hreq Hnew; by simplify_eq. }
  rewrite outgoing_lookup. destruct (_ !! k); [done|].
  unfold own_headers. rewrite lookup_insert. case_decide; [by subst|].
  rewrite lookup_singleton. by repeat case_decide; subst.
Qed.

(** X9.  [request] returns a response only if that response was the
    outcome of the last call it made on the client, and only if its
    status is below 400. *)
Theorem returned_response_is_last (t : SyncTransport A) resp t' new :
  request server method url kwargs t = (Ok resp, t') →
  calls t' = calls t ++ new →
  status_code resp < 400
  ∧ ∃ q, last new = Some (ClientRequest q (Ok resp)).
Proof.
  intros Hreq Hnew.
  apply request_run in Hreq.
  inversion Hreq; subst; apply calls_after in Hnew; subst;
    match goal with
    | H : classify _ = Ok _ |- _ => apply classify_returns in H as [-> ?]
    | H : Ok _ = classify _ |- _ =>
        symmetry in H; apply classify_returns in H as [-> ?]
    end;
    unfold classify; rewrite (proj2 (Z.leb_gt 400 _)) by done;
    (split; [done | by eexists]).
Qed.

End more_contract.

(** X10.  The wait between attempts that the decorator asks for is never
    below 0.5 s, never above 5 s, and never shrinks from one attempt to
    the next. *)
Theorem wait_exponential_bounds (n m : nat) :
  (n ≤ m)%nat →
  500 ≤ wait_exponential n
  ∧ wait_exponential n ≤ 5000
  ∧ wait_exponential n ≤ wait_exponential m.
Proof.
  intros Hnm. unfold wait_exponential. split; [lia|]. split; [lia|].
  assert (2 ^ (Z.of_nat n - 1) ≤ 2 ^ (Z.of_nat m - 1)); [|lia].
  destruct n as [|n].
  - cbn. apply Z.pow_nonneg. lia.
  - apply Z.pow_le_mono_r; lia.
Qed.

(** ** The same at concrete inputs *)

Lemma request_effects_bounded_witness :
  let run := request unauthorized_then_ok "GET" test_url custom_headers patched_transport in
  calls run.2 = calls patched_transport ++ refreshed_calls
  ∧ (length (requests refreshed_calls) ≤ 2)%nat
  ∧ (fetches refreshed_calls ≤ 1)%nat
  ∧ (length refreshed_calls ≤ 5)%nat
  ∧ sleeps refreshed_calls = [].
Proof.
  intros run.
  assert (calls run.2 = calls patched_transport ++ refreshed_calls) as Hnew
    by (vm_compute; reflexivity).
  split; [exact Hnew|].
  exact (request_effects_bounded unauthorized_then_ok "GET" test_url custom_headers
           patched_transport run.1 run.2 refreshed_calls (surjective_pairing run) Hnew).
Defined.

Lemma request_never_raises_httpx_witness :
  let server := side_effect [] (fails (ConnectError "connection reset")) in
  let run := request server "GET" test_url no_kwargs patched_transport in
  run = (Raise (APIConnectionError "connection reset"), run.2)
  ∧ APIConnectionError "connection reset" ≠ Httpx (ConnectError "connection reset").
Proof.
  intros server run.
  assert (run = (Raise (APIConnectionError "connection reset"), run.2)) as Hrun
    by (vm_compute; reflexivity).
  split; [exact Hrun|].
  exact (request_never_raises_httpx server "GET" test_url no_kwargs patched_transport
           _ _ (ConnectError "connection reset") Hrun).
Defined.

Lemma other_status_is_final_witness :
  let server := respond_with 403 "Forbidden" in
  let resp := {| status_code := 403; text := "Forbidden"; body_json := None |} in
  (outcome (server 0%nat plain_request) = Ok resp ∧ status_code resp ≠ 401)
  ∧ request server "GET" test_url no_kwargs patched_transport =
      (Raise (APIResponseError 403 "Forbidden"),
       after patched_transport (auth patched_transport) 0 (answered 403 "Forbidden"))
  ∧ requests (answered 403 "Forbidden") = [plain_request]
  ∧ fetches (answered 403 "Forbidden") = 0%nat.
Proof.
  intros server resp.
  assert (status_code resp ≠ 401) as Hstatus by (cbn; lia).
  split; [by split|].
  exact (other_status_is_final server "GET" test_url no_kwargs patched_transport
           "test_token_12345" (auth patched_transport) 0 resp eq_refl eq_refl Hstatus).
Defined.

Lemma no_token_no_call_witness :
  let e := ValueError credentials_required in
  let t := scripted [Raise e] [] in
  let t' := after t (auth (scripted [] [])) 0 [AuthToken (Raise e)] in
  token (auth t, clock t) = (Raise e, (auth (scripted [] []), 0))
  ∧ request unauthorized_then_ok "GET" test_url no_kwargs t = (Raise e, t')
  ∧ requests [AuthToken (Raise e)] = [].
Proof.
  intros e t t'.
  assert (token (auth t, clock t) = (Raise e, (auth (scripted [] []), 0))) as Htok
    by reflexivity.
  destruct (no_token_no_call unauthorized_then_ok "GET" test_url no_kwargs t e
              (auth (scripted [] [])) 0 Htok) as (Hreq & Hnone & _).
  split; [exact Htok|]. split; [exact Hreq | exact Hnone].
Defined.

Lemma failed_refetch_is_final_witness :
  let e := APIResponseError 500 "token endpoint down" in
  let t := scripted [] [Raise e] in
  let new := [AuthToken (Ok "test_token_12345");
              ClientRequest plain_request (Ok mock_response_401);
              AuthFetch (Raise e)] in
  (outcome (unauthorized_then_ok 0%nat plain_request) = Ok mock_response_401
   ∧ _fetch (auth t, 0) = (Raise e, (auth (scripted [] []), 0)))
  ∧ request unauthorized_then_ok "GET" test_url no_kwargs t =
      (Raise e, after t (auth (scripted [] [])) 0 new)
  ∧ requests new = [plain_request].
Proof.
  intros e t new. split; [by split|].
  exact (failed_refetch_is_final unauthorized_then_ok "GET" test_url no_kwargs t
           "test_token_12345" (auth t) 0 mock_response_401 e (auth (scripted [] [])) 0
           eq_refl eq_refl eq_refl eq_refl).
Defined.

Lemma httpx_error_becomes_connection_error_witness :
  let h := OtherHTTPError "read timed out" in
  let server := side_effect [] (fails h) in
  let run := request server "GET" test_url no_kwargs patched_transport in
  let c := ClientRequest plain_request (Raise (Httpx h)) in
  let new := [AuthToken (Ok "test_token_12345"); c] in
  (calls run.2 = calls patched_transport ++ new ∧ In c new)
  ∧ run.1 = Raise (APIConnectionError "read timed out")
  ∧ last new = Some c.
Proof.
  intros h server run c new.
  assert (calls run.2 = calls patched_transport ++ new) as Hnew
    by (vm_compute; reflexivity).
  assert (In c new) as Hin by (right; left; reflexivity).
  split; [exact (conj Hnew Hin)|].
  apply (httpx_error_becomes_connection_error server "GET" test_url no_kwargs
           patched_transport run.1 run.2 new c h (surjective_pairing run) Hnew Hin eq_refl).
  intros m. discriminate.
Defined.

Lemma calls_carry_the_arguments_witness :
  let run := request unauthorized_then_ok "GET" test_url custom_headers patched_transport in
  let q2 := outgoing "GET" test_url (pop_headers custom_headers).2 mock_config
              "test_token_12345" in
  (calls run.2 = calls patched_transport ++ refreshed_calls
   ∧ In q2 (requests refreshed_calls))
  ∧ req_method q2 = "GET"
  ∧ req_url q2 = test_url
  ∧ req_params q2 = kw_params custom_headers
  ∧ req_json q2 = kw_json custom_headers.
Proof.
  intros run q2.
  assert (calls run.2 = calls patched_transport ++ refreshed_calls) as Hnew
    by (vm_compute; reflexivity).
  assert (In q2 (requests refreshed_calls)) as Hin by (right; left; reflexivity).
  split; [exact (conj Hnew Hin)|].
  exact (calls_carry_the_arguments unauthorized_then_ok "GET" test_url custom_headers
           patched_transport run.1 run.2 refreshed_calls q2
           (surjective_pairing run) Hnew Hin).
Defined.

Lemma first_call_headers_witness :
  let server := respond_with 200 "ok" in
  let run := request server "GET" test_url custom_headers patched_transport in
  let q1 := outgoing "GET" test_url custom_headers mock_config "test_token_12345" in
  calls run.2 = calls patched_transport ++
    AuthToken (Ok "test_token_12345") :: ClientRequest q1 (Ok ok_response) :: []
  ∧ req_headers q1 !! "X-Custom-Header" = Some "v"
  ∧ req_headers q1 !! "Authorization" = Some "Bearer test_token_12345"
  ∧ req_headers q1 !! "Partner-Id" = Some "test_partner"
  ∧ req_headers q1 !! "Accept" = None.
Proof.
  intros server run q1.
  assert (calls run.2 = calls patched_transport ++
            AuthToken (Ok "test_token_12345") :: ClientRequest q1 (Ok ok_response) :: [])
    as Hnew by (vm_compute; reflexivity).
  pose proof (λ k, first_call_headers server "GET" test_url custom_headers
                     patched_transport run.1 run.2 "test_token_12345" q1
                     (Ok ok_response) [] k (surjective_pairing run) Hnew) as H.
  split; [exact Hnew|].
  split; [exact (H "X-Custom-Header")|].
  split; [exact (H "Authorization")|].
  split; [exact (H "Partner-Id") | exact (H "Accept")].
Defined.

Lemma returned_response_is_last_witness :
  let server := respond_with 200 "ok" in
  let run := request server "GET" test_url no_kwargs patched_transport in
  (run = (Ok ok_response, run.2)
   ∧ calls run.2 = calls patched_transport ++ answered 200 "ok")
  ∧ status_code ok_response < 400
  ∧ ∃ q, last (answered 200 "ok") = Some (ClientRequest q (Ok ok_response)).
Proof.
  intros server run.
  assert (run = (Ok ok_response, run.2)) as Hrun by (vm_compute; reflexivity).
  assert (calls run.2 = calls patched_transport ++ answered 200 "ok") as Hnew
    by (vm_compute; reflexivity).
  split; [exact (conj Hrun Hnew)|].
  exact (returned_response_is_last server "GET" test_url no_kwargs patched_transport
           ok_response run.2 (answered 200 "ok") Hrun Hnew).
Defined.

Lemma wait_exponential_bounds_witness :
  (1 ≤ 2)%nat
  ∧ 500 ≤ wait_exponential 1
  ∧ wait_exponential 1 ≤ 5000
  ∧ wait_exponential 1 ≤ wait_exponential 2.
Proof.
  assert (1 ≤ 2)%nat as H by lia.
  exact (conj H (wait_exponential_bounds 1 2 H)).
Defined.

(* ===================================================================== *)
(** * More about the webhooks                                             *)
(* ===================================================================== *)

Lemma getitem_topic wh v : topic_of wh = Some v → getitem wh "topic" = Ok v.
Proof. destruct wh; try done. cbn. by intros ->. Qed.

Lemma has_topic_truthy wanted wh : has_topic wanted wh → truthy wh = true.
Proof.
  intros (v & Hv & _). destruct wh as [| | | | |m]; try done. cbn in *.
  apply negb_true_iff, Nat.eqb_neq, map_size_non_empty_iff.
  intros ->. by rewrite lookup_empty in Hv.
Qed.

(** The search passes over elements with another topic. *)
Lemma first_with_topic_skips webhook_type wanted l1 l :
  webhook_type_map !! webhook_type = Some wanted →
  Forall (has_other_topic wanted) l1 →
  first_with_topic webhook_type (l1 ++ l) = first_with_topic webhook_type l.
Proof.
  intros Hmap. induction 1 as [|wh l1 (v & Hv & Hne) _ IH]; [done|].
  cbn [app first_with_topic]. rewrite (getitem_topic _ _ Hv), Hmap.
  cbn. by rewrite Hne.
Qed.

Section webhooks_more_facts.
Variable Webhook : Type.
Variable validate_webhook : JSON → option Webhook.
Variable backend : Backend.
Variable base_url_ : string.

Abbreviation listing_call :=
  {| inv_method := "GET"; inv_url := webhooks_base base_url_; inv_kwargs := no_kwargs |}.

(** [get_by_type], once the listing is in. *)
Lemma get_by_type_listing webhook_type log r data :
  backend (length log) (listing_call) = Ok r →
  body_json r = Some data →
  get_by_type Webhook validate_webhook backend base_url_ webhook_type log =
    (found ← find_webhook webhook_type data;
     validated_or_none Webhook validate_webhook found,
     log ++ [listing_call]).
Proof.
  intros Hreply Hbody.
  unfold get_by_type, _request, mbind at 1 2 3, M_bind, lift.
  rewrite Hreply. unfold json. rewrite Hbody.
  by destruct (find_webhook webhook_type data).
Qed.

(** X11.  When the listing holds no webhook of the wanted topic (every
    element has a topic, none of them the one the type maps to),
    [get_by_type] returns [None], after its one GET; nothing is
    validated. *)
Theorem get_by_type_no_match webhook_type wanted log r l :
  webhook_type_map !! webhook_type = Some wanted →
  backend (length log) (listing_call) = Ok r →
  body_json r = Some (JArr l) →
  Forall (has_other_topic wanted) l →
  get_by_type Webhook validate_webhook backend base_url_ webhook_type log =
    (Ok None, log ++ [listing_call]).
Proof.
  intros Hmap Hreply Hbody Hall.
  rewrite (get_by_type_listing _ _ _ _ Hreply Hbody).
  unfold find_webhook; cbn.
  rewrite <- (app_nil_r l), (first_with_topic_skips _ _ _ _ Hmap Hall).
  done.
Qed.

(** X12.  The first webhook of the wanted topic is the one returned:
    elements before it with other topics are passed over, and what comes
    after it is never looked at, well-formed or not.  What is returned is
    that element as validation makes it, or validation's error. *)
Theorem get_by_type_first_match webhook_type wanted log r l1 wh l2 :
  webhook_type_map !! webhook_type = Some wanted →
  backend (length log) (listing_call) = Ok r →
  body_json r = Some (JArr (l1 ++ wh :: l2)) →
  Forall (has_other_topic wanted) l1 →
  has_topic wanted wh →
  get_by_type Webhook validate_webhook backend base_url_ webhook_type log =
    (Some <$> validate_python Webhook validate_webhook wh, log ++ [listing_call]).
Proof.
  intros Hmap Hreply Hbody Hall Hwh.
  rewrite (get_by_type_listing _ _ _ _ Hreply Hbody).
  unfold find_webhook; cbn.
  rewrite (first_with_topic_skips _ _ _ _ Hmap Hall).
  pose proof (has_topic_truthy _ _ Hwh) as Htruthy.
  destruct Hwh as (v & Hv & Heq).
  cbn [first_with_topic]. rewrite (getitem_topic _ _ Hv), Hmap. cbn.
  rewrite Heq. cbn. by rewrite Htruthy.
Qed.

(** X13.  [get_by_type] does not check the type itself.  With a type
    that is not in [webhook_type_map], an empty listing gives [None];
    a listing with a first element gives that element's error if it has
    no topic to read, and [KeyError] for the type otherwise. *)
Theorem get_by_type_unknown_type webhook_type log r l :
  webhook_type_map !! webhook_type = None →
  backend (length log) (listing_call) = Ok r →
  body_json r = Some (JArr l) →
  get_by_type Webhook validate_webhook backend base_url_ webhook_type log =
    (match l with
     | [] => Ok None
     | wh :: _ =>
         match getitem wh "topic" with
         | Ok _ => Raise (KeyError webhook_type)
         | Raise e => Raise e
         end
     end, log ++ [listing_call]).
Proof.
  intros Hmap Hreply Hbody.
  rewrite (get_by_type_listing _ _ _ _ Hreply Hbody).
  unfold find_webhook; cbn. destruct l as [|wh l]; [done|].
  cbn [first_with_topic]. destruct (getitem wh "topic"); [|done].
  cbn. by rewrite Hmap.
Qed.

(** X14.  [select] with a type that is not in [webhook_type_map] raises
    [ValueError] naming the type, and makes no call. *)
Theorem select_unknown_type webhook_type log :
  webhook_type_map !! webhook_type = None →
  select Webhook validate_webhook backend base_url_ webhook_type log =
    (Raise (ValueError ("Invalid webhook type: " +:+ webhook_type)), log).
Proof.
  intros Hmap. unfold select.
  rewrite bool_decide_eq_false_2; [done|].
  rewrite Hmap. by intros [? ?].
Qed.

(** X15.  [select] with a known type is the lookup with [None] turned
    into an error: one GET; the webhook the lookup found; [ValueError]
    "not found" where it found none; the lookup's exception where it
    raised. *)
Theorem select_known_type webhook_type log :
  is_Some (webhook_type_map !! webhook_type) →
  let lookup := get_by_type Webhook validate_webhook backend base_url_ webhook_type log in
  select Webhook validate_webhook backend base_url_ webhook_type log =
    (match lookup.1 with
     | Ok (Some w) => Ok w
     | Ok None =>
         Raise (ValueError ("Webhook with type " +:+ webhook_type +:+ " not found"))
     | Raise e => Raise e
     end, log ++ [listing_call]).
Proof.
  intros Htype lookup. subst lookup. unfold select.
  rewrite bool_decide_eq_true_2 by done. cbn [negb].
  unfold mbind, M_bind, mret, M_ret, raise.
  pose proof (get_by_type_one_call Webhook validate_webhook backend base_url_
                webhook_type log) as Hlog.
  destruct (get_by_type Webhook validate_webhook backend base_url_ webhook_type log)
    as [[[w|]|e] log']; cbn in *; by subst.
Qed.

(** X16.  [upsert] and [create] share their guards: with a type that is
    not in [webhook_type_map], or a URL that does not start with "http",
    both raise the same [ValueError] and neither makes a call. *)
Theorem guards_reject_without_call webhook_type url log :
  webhook_type_map !! webhook_type = None ∨ startswith url "http" = false →
  ∃ msg,
    upsert Webhook validate_webhook backend base_url_ webhook_type url log =
      (Raise (ValueError msg), log)
    ∧ create Webhook validate_webhook backend base_url_ webhook_type url log =
      (Raise (ValueError msg), log).
Proof.
  intros Hbad.
  assert (∃ msg, check_arguments webhook_type url = Raise (ValueError msg)) as [msg Hmsg].
  { unfold check_arguments.
    destruct (webhook_type_map !! webhook_type) eqn:Hmap.
    - rewrite bool_decide_eq_true_2 by eauto. cbn [negb].
      destruct Hbad as [|Hurl]; [done|]. rewrite Hurl, orb_true_r. eauto.
    - rewrite bool_decide_eq_false_2 by (by intros [? ?]). cbn. eauto. }
  exists msg. unfold upsert, create, mbind, M_bind. by rewrite Hmsg.
Qed.

(** X17.  [create] with a known type and a URL starting with "http"
    makes one call whatever comes of it: a POST to the webhooks URL whose
    JSON body is the topic the type maps to, the URL as given, and
    [active] set. *)
Theorem create_posts_once webhook_type wanted url log :
  webhook_type_map !! webhook_type = Some wanted →
  startswith url "http" = true →
  (create Webhook validate_webhook backend base_url_ webhook_type url log).2 =
    log ++ [ {| inv_method := "POST"; inv_url := webhooks_base base_url_;
                inv_kwargs :=
                  {| kw_headers := None; kw_params := None;
                     kw_json := Some (JObj (<[ "topic" := JStr wanted ]>
                                            (<[ "url" := JStr url ]>
                                             {[ "active" := JBool true ]}))) |} |} ].
Proof.
  intros Hmap Hurl. unfold create, mbind, M_bind.
  rewrite check_arguments_ok by (by rewrite ?Hmap). unfold lift at 1.
  rewrite Hmap. cbn [default]. unfold _request.
  destruct (backend _ _) as [r|e]; [|done].
  unfold lift. destruct (json r) as [data|e]; [|done].
  by destruct (validate_python _ _ data).
Qed.

(** X18.  What [list] returns is the listing, element by element: the
    body was a JSON array, and the webhooks returned are its elements as
    validation makes them, as many and in the same order. *)
Theorem webhooks_list_elementwise log ws log' :
  webhooks_list Webhook validate_webhook backend base_url_ log = (Ok ws, log') →
  ∃ r l,
    backend (length log) (listing_call) = Ok r
    ∧ body_json r = Some (JArr l)
    ∧ Forall2 (λ j w, validate_webhook j = Some w) l ws
    ∧ log' = log ++ [listing_call].
Proof.
  unfold webhooks_list, _request, mbind, M_bind, lift, json.
  destruct (backend _ _) as [r|e] eqn:Hreply; [|done].
  destruct (body_json r) as [data|] eqn:Hbody; [|done].
  destruct data as [| | | |l|]; try done. cbn.
  destruct (mapM validate_webhook l) as [ws'|] eqn:Hmap; [|done].
  intros [= <- <-]. exists r, l. by apply mapM_Some in Hmap.
Qed.

(** X19.  [delete] makes one DELETE call, to the webhooks URL followed
    by the id, and returns exactly when that call comes back with status
    200: a response with any other status, a 204 included, makes it raise
    a plain [Exception], and an exception of the call passes through. *)
Theorem delete_returns_iff_200 webhook_id log :
  let call := {| inv_method := "DELETE";
                 inv_url := webhooks_base base_url_ +:+ "/" +:+ webhook_id;
                 inv_kwargs := no_kwargs |} in
  let result := delete backend base_url_ webhook_id log in
  result.2 = log ++ [call]
  ∧ (result.1 = inr () ↔ ∃ r, backend (length log) call = Ok r ∧ status_code r = 200)
  ∧ (∀ e, result.1 = inl (Propagated e) ↔ backend (length log) call = Raise e).
Proof.
  intros call result. subst result. unfold delete, _request. fold call.
  destruct (backend (length log) call) as [r|e]; cbn.
  - destruct (Z.eqb_spec (status_code r) 200) as [Hs|Hs]; cbn.
    + split; [done|]. split; [split; eauto|]. by split.
    + split; [done|]. split; [|by split].
      split; [done|]. by intros (r' & [= <-] & ?).
  - split; [done|]. split; [split; [done | by intros (? & ? & _)]|].
    intros e'. split; congruence.
Qed.

End webhooks_more_facts.

(** ** The same at concrete inputs *)

Lemma other_webhook_other_topic wanted :
  eq_str (JStr "public.siigoapi.products.update") wanted = false →
  has_other_topic wanted other_webhook.
Proof. intros H. by exists (JStr "public.siigoapi.products.update"). Qed.

Lemma get_by_type_no_match_witness :
  let wanted := "public.siigoapi.products.stock.update" in
  let l := [other_webhook; one_webhook] in
  (webhook_type_map !! "STOCK_UPDATE" = Some wanted
   ∧ Forall (has_other_topic wanted) l)
  ∧ get_by_type JSON Some (answers (JArr l)) test_base "STOCK_UPDATE" [] =
      (Ok None, [lookup_call]).
Proof.
  intros wanted l.
  assert (Forall (has_other_topic wanted) l) as Hall.
  { repeat constructor.
    - by apply other_webhook_other_topic.
    - by exists (JStr "public.siigoapi.products.create"). }
  split; [by split|].
  exact (get_by_type_no_match JSON Some (answers (JArr l)) test_base
           "STOCK_UPDATE" wanted [] (ok_with (JArr l)) l eq_refl eq_refl eq_refl Hall).
Defined.

Lemma get_by_type_first_match_witness :
  let wanted := "public.siigoapi.products.create" in
  (Forall (has_other_topic wanted) [other_webhook] ∧ has_topic wanted one_webhook)
  ∧ get_by_type JSON Some (answers listing_with_junk) test_base "PRODUCTS_CREATE" [] =
      (Ok (Some one_webhook), [lookup_call]).
Proof.
  intros wanted.
  assert (Forall (has_other_topic wanted) [other_webhook]) as Hall
    by (repeat constructor; by apply other_webhook_other_topic).
  assert (has_topic wanted one_webhook) as Hwh
    by (by exists (JStr "public.siigoapi.products.create")).
  split; [by split|].
  exact (get_by_type_first_match JSON Some (answers listing_with_junk) test_base
           "PRODUCTS_CREATE" wanted [] (ok_with listing_with_junk)
           [other_webhook] one_webhook [JNull] eq_refl eq_refl eq_refl Hall Hwh).
Defined.

Lemma get_by_type_unknown_type_witness :
  webhook_type_map !! "ORDERS_CREATE" = None
  ∧ get_by_type JSON Some (answers two_webhooks) test_base "ORDERS_CREATE" [] =
      (Raise (KeyError "ORDERS_CREATE"), [lookup_call])
  ∧ get_by_type JSON Some (answers (JArr [])) test_base "ORDERS_CREATE" [] =
      (Ok None, [lookup_call]).
Proof.
  split; [reflexivity|]. split.
  - exact (get_by_type_unknown_type JSON Some (answers two_webhooks) test_base
             "ORDERS_CREATE" [] (ok_with two_webhooks) _ eq_refl eq_refl eq_refl).
  - exact (get_by_type_unknown_type JSON Some (answers (JArr [])) test_base
             "ORDERS_CREATE" [] (ok_with (JArr [])) [] eq_refl eq_refl eq_refl).
Defined.

Lemma select_unknown_type_witness :
  webhook_type_map !! "ORDERS_CREATE" = None
  ∧ select JSON Some (answers two_webhooks) test_base "ORDERS_CREATE" [] =
      (Raise (ValueError "Invalid webhook type: ORDERS_CREATE"), []).
Proof.
  split; [reflexivity|].
  exact (select_unknown_type JSON Some (answers two_webhooks) test_base
           "ORDERS_CREATE" [] eq_refl).
Defined.

Lemma select_known_type_witness :
  is_Some (webhook_type_map !! "PRODUCTS_CREATE")
  ∧ select JSON Some (answers two_webhooks) test_base "PRODUCTS_CREATE" [] =
      (Ok one_webhook, [lookup_call])
  ∧ select JSON Some (answers (JArr [])) test_base "PRODUCTS_CREATE" [] =
      (Raise (ValueError "Webhook with type PRODUCTS_CREATE not found"), [lookup_call]).
Proof.
  assert (is_Some (webhook_type_map !! "PRODUCTS_CREATE")) as Htype
    by (eexists; reflexivity).
  split; [exact Htype|]. split.
  - rewrite (select_known_type JSON Some (answers two_webhooks) test_base
               "PRODUCTS_CREATE" [] Htype).
    vm_compute. reflexivity.
  - rewrite (select_known_type JSON Some (answers (JArr [])) test_base
               "PRODUCTS_CREATE" [] Htype).
    vm_compute. reflexivity.
Defined.

Lemma guards_reject_without_call_witness :
  (webhook_type_map !! "PRODUCTS_CREATE" = None
   ∨ startswith "ftp://example.com" "http" = false)
  ∧ ∃ msg,
      upsert JSON Some (answers two_webhooks) test_base
        "PRODUCTS_CREATE" "ftp://example.com" [] = (Raise (ValueError msg), [])
      ∧ create JSON Some (answers two_webhooks) test_base
        "PRODUCTS_CREATE" "ftp://example.com" [] = (Raise (ValueError msg), []).
Proof.
  assert (webhook_type_map !! "PRODUCTS_CREATE" = None
          ∨ startswith "ftp://example.com" "http" = false) as Hbad
    by (right; reflexivity).
  split; [exact Hbad|].
  exact (guards_reject_without_call JSON Some (answers two_webhooks) test_base
           "PRODUCTS_CREATE" "ftp://example.com" [] Hbad).
Defined.

Lemma create_posts_once_witness :
  let payload := JObj (<[ "topic" := JStr "public.siigoapi.products.create" ]>
                       (<[ "url" := JStr "https://example.com/hook" ]>
                        {[ "active" := JBool true ]})) in
  (webhook_type_map !! "PRODUCTS_CREATE" = Some "public.siigoapi.products.create"
   ∧ startswith "https://example.com/hook" "http" = true)
  ∧ (create JSON Some (answers one_webhook) test_base
       "PRODUCTS_CREATE" "https://example.com/hook" []).2 =
    [] ++ [ {| inv_method := "POST"; inv_url := webhooks_base test_base;
               inv_kwargs := {| kw_headers := None; kw_params := None;
                                kw_json := Some payload |} |} ].
Proof.
  intros payload. split; [by split|].
  exact (create_posts_once JSON Some (answers one_webhook) test_base
           "PRODUCTS_CREATE" "public.siigoapi.products.create"
           "https://example.com/hook" [] eq_refl eq_refl).
Defined.

Lemma webhooks_list_elementwise_witness :
  let l := [other_webhook; one_webhook] in
  webhooks_list JSON Some (answers (JArr l)) test_base [] = (Ok l, [lookup_call])
  ∧ ∃ r l',
      answers (JArr l) 0%nat lookup_call = Ok r
      ∧ body_json r = Some (JArr l')
      ∧ Forall2 (λ j w, Some j = Some w) l' l
      ∧ [lookup_call] = [] ++ [lookup_call].
Proof.
  intros l.
  assert (webhooks_list JSON Some (answers (JArr l)) test_base [] = (Ok l, [lookup_call]))
    as Hlist by (vm_compute; reflexivity).
  split; [exact Hlist|].
  exact (webhooks_list_elementwise JSON Some (answers (JArr l)) test_base
           [] l [lookup_call] Hlist).
Defined.

(** A 204 makes [delete] raise. *)
Example delete_204 :
  delete (replies_with 204) test_base "wh-1" [] =
    (inl (PlainException "Failed to delete webhook with ID wh-1. Status code: 204"),
     [ {| inv_method := "DELETE";
          inv_url := "https://api.test.siigo.com/v1/webhooks/wh-1";
          inv_kwargs := no_kwargs |} ]).
Proof. vm_compute. reflexivity. Qed.

(* ===================================================================== *)
(** * More about the customers                                            *)
(* ===================================================================== *)

Section customers_more_facts.
Variable Customer : Type.
Variable validate_customer : JSON → option Customer.
Variable backend : Backend.
Variable base_url_ : string.

Abbreviation customers_call created_start :=
  {| inv_method := "GET"; inv_url := customers_base base_url_;
     inv_kwargs := {| kw_headers := None;
                      kw_params := Some (list_params created_start);
                      kw_json := None |} |}.

(** X20.  [list] makes one GET whatever comes of it, and its query
    carries [created_start] exactly when a non-empty one was given: with
    [None] or the empty string the query is empty. *)
Theorem list_sends_created_start created_start log :
  (customers_list Customer validate_customer backend base_url_ created_start log).2 =
    log ++ [customers_call created_start]
  ∧ list_params created_start =
      match created_start with
      | Some v => if decide (v = "") then ∅ else {[ "created_start" := v ]}
      | None => ∅
      end.
Proof.
  split.
  - unfold customers_list, _request, mbind, M_bind, lift.
    destruct (backend _ _) as [r|e]; [|done].
    destruct (json r) as [data|e]; [|done].
    destruct (list_items data) as [items|e]; [|done].
    by destruct (validate_customers _ _ items).
  - by destruct created_start as [[|a v]|].
Qed.

(** X21.  A body that is JSON but no object (a top-level array, say)
    makes [list] raise [AttributeError]: there is no [get] to call on
    it. *)
Theorem list_wants_an_object created_start log r data :
  backend (length log) (customers_call created_start) = Ok r →
  body_json r = Some data →
  (∀ m, data ≠ JObj m) →
  ∃ msg,
    customers_list Customer validate_customer backend base_url_ created_start log =
      (Raise (AttributeError msg), log ++ [customers_call created_start]).
Proof.
  intros Hreply Hbody Hno.
  unfold customers_list, _request, mbind, M_bind, lift.
  rewrite Hreply. unfold json. rewrite Hbody.
  destruct data as [| | | | |m]; cbn; eauto. by destruct (Hno m).
Qed.

(** X22.  A truthy value under ["results"] is taken as the items even
    when it is not a list; [list] then raises [ValidationError], whatever
    ["data"] holds. *)
Theorem list_does_not_fall_back created_start log r m v :
  backend (length log) (customers_call created_start) = Ok r →
  body_json r = Some (JObj m) →
  m !! "results" = Some v →
  truthy v = true →
  (∀ l, v ≠ JArr l) →
  ∃ msg,
    customers_list Customer validate_customer backend base_url_ created_start log =
      (Raise (ValidationError msg), log ++ [customers_call created_start]).
Proof.
  intros Hreply Hbody Hresults Htruthy Hno.
  unfold customers_list, _request, mbind, M_bind, lift.
  rewrite Hreply. unfold json. rewrite Hbody.
  unfold list_items, dict_get, py_or. rewrite Hresults. cbn. rewrite Htruthy, Htruthy.
  destruct v as [| | | |l|]; cbn; eauto. by destruct (Hno l).
Qed.

(** X23.  The customers [list] yields are the items it read, element by
    element: the body was an object, the items taken from it a list, and
    the customers are that list's elements as validation makes them, as
    many and in the same order. *)
Theorem customers_list_elementwise created_start log cs log' :
  customers_list Customer validate_customer backend base_url_ created_start log =
    (Ok cs, log') →
  ∃ r m l,
    backend (length log) (customers_call created_start) = Ok r
    ∧ body_json r = Some (JObj m)
    ∧ list_items (JObj m) = Ok (JArr l)
    ∧ Forall2 (λ j c, validate_customer j = Some c) l cs.
Proof.
  unfold customers_list, _request, mbind, M_bind, lift, json.
  destruct (backend _ _) as [r|e] eqn:Hreply; [|done].
  destruct (body_json r) as [data|] eqn:Hbody; [|done].
  destruct data as [| | | | |m]; try done.
  destruct (list_items (JObj m)) as [items|e] eqn:Hitems; [|done].
  destruct items as [| | | |l|]; try done. cbn.
  destruct (mapM validate_customer l) as [cs'|] eqn:Hmap; [|done].
  intros [= <- <-]. exists r, m, l. by apply mapM_Some in Hmap.
Qed.

(** X24.  [create] makes one call whatever comes of it: a POST to the
    customers URL whose JSON body is the customer data as given.  It
    returns only what validation makes of the response body. *)
Theorem customers_create_posts customer_data log :
  let call := {| inv_method := "POST"; inv_url := customers_base base_url_;
                 inv_kwargs := {| kw_headers := None; kw_params := None;
                                  kw_json := Some (JObj customer_data) |} |} in
  let result := customers_create Customer validate_customer backend base_url_
                  customer_data log in
  result.2 = log ++ [call]
  ∧ ∀ c, result.1 = Ok c →
      ∃ r data, backend (length log) call = Ok r
                ∧ body_json r = Some data
                ∧ validate_customer data = Some c.
Proof.
  intros call result. subst result.
  unfold customers_create, _request, mbind, M_bind, lift, json, model_validate.
  fold call.
  destruct (backend (length log) call) as [r|e] eqn:Hreply; [|by split].
  destruct (body_json r) as [data|] eqn:Hbody; [|by split]. cbn.
  destruct (validate_customer data) as [c|] eqn:Hvalid; [|by split].
  split; [done|]. intros c' [= <-]. by exists r, data.
Qed.

End customers_more_facts.

(** ** [get_id_type_code] *)

Lemma upper_char_C a :
  is_ascii a = true → upper_char a = "C"%char → a = "c"%char ∨ a = "C"%char.
Proof.
  destruct a as [[] [] [] [] [] [] [] []]; vm_compute; intros; try discriminate; auto.
Qed.

Lemma upper_char_N a :
  is_ascii a = true → upper_char a = "N"%char → a = "n"%char ∨ a = "N"%char.
Proof.
  destruct a as [[] [] [] [] [] [] [] []]; vm_compute; intros; try discriminate; auto.
Qed.

Lemma upper_char_I a :
  is_ascii a = true → upper_char a = "I"%char → a = "i"%char ∨ a = "I"%char.
Proof.
  destruct a as [[] [] [] [] [] [] [] []]; vm_compute; intros; try discriminate; auto.
Qed.

Lemma upper_char_T a :
  is_ascii a = true → upper_char a = "T"%char → a = "t"%char ∨ a = "T"%char.
Proof.
  destruct a as [[] [] [] [] [] [] [] []]; vm_compute; intros; try discriminate; auto.
Qed.

(** X25.  [get_id_type_code] knows two identification types and reads
    them without regard to case: on ASCII input it returns "13" exactly
    for the four spellings of "cc", "31" exactly for the eight spellings
    of "nit", and [None] for everything else. *)
Theorem get_id_type_code_spellings id_type :
  all_ascii id_type = true →
  (get_id_type_code id_type = Some "13" ↔ In id_type ["cc"; "cC"; "Cc"; "CC"])
  ∧ (get_id_type_code id_type = Some "31" ↔
       In id_type ["nit"; "niT"; "nIt"; "nIT"; "Nit"; "NiT"; "NIt"; "NIT"])
  ∧ (get_id_type_code id_type = Some "13"
     ∨ get_id_type_code id_type = Some "31"
     ∨ get_id_type_code id_type = None).
Proof.
  intros Hascii. split; [|split].
  - split.
    + unfold get_id_type_code.
      destruct (String.eqb_spec (upper id_type) "CC") as [Hcc|_].
      * intros _. destruct id_type as [|a [|b [|]]]; try discriminate.
        cbn [all_ascii upper] in Hascii, Hcc. apply andb_true_iff in Hascii as [Ha Hb].
        apply andb_true_iff in Hb as [Hb _]. injection Hcc as Ha' Hb'.
        destruct (upper_char_C a Ha Ha') as [-> | ->],
                 (upper_char_C b Hb Hb') as [-> | ->]; cbn; auto.
      * destruct (String.eqb_spec (upper id_type) "NIT"); [|done].
        vm_compute. discriminate.
    + cbn. intros [<-|[<-|[<-|[<-|[]]]]]; reflexivity.
  - split.
    + unfold get_id_type_code.
      destruct (String.eqb_spec (upper id_type) "CC") as [_|_].
      * vm_compute. discriminate.
      * destruct (String.eqb_spec (upper id_type) "NIT") as [Hnit|]; [|done].
        intros _. destruct id_type as [|a [|b [|c [|]]]]; try discriminate.
        cbn [all_ascii upper] in Hascii, Hnit. apply andb_true_iff in Hascii as [Ha Hb].
        apply andb_true_iff in Hb as [Hb Hc]. apply andb_true_iff in Hc as [Hc _].
        injection Hnit as Ha' Hb' Hc'.
        destruct (upper_char_N a Ha Ha') as [-> | ->],
                 (upper_char_I b Hb Hb') as [-> | ->],
                 (upper_char_T c Hc Hc') as [-> | ->]; cbn; auto 10.
    + cbn. intros [<-|[<-|[<-|[<-|[<-|[<-|[<-|[<-|[]]]]]]]]]; reflexivity.
  - unfold get_id_type_code.
    destruct (String.eqb (upper id_type) "CC"); [by left|].
    destruct (String.eqb (upper id_type) "NIT"); [by right; left | by right; right].
Qed.

(** ** The same at concrete inputs *)

Lemma list_wants_an_object_witness :
  (∀ m, JArr [JNum 1] ≠ JObj m)
  ∧ ∃ msg,
      customers_list JSON Some (answers (JArr [JNum 1])) test_base None [] =
        (Raise (AttributeError msg), [] ++ [list_call]).
Proof.
  assert (∀ m, JArr [JNum 1] ≠ JObj m) as Hno by (intros m; discriminate).
  split; [exact Hno|].
  exact (list_wants_an_object JSON Some (answers (JArr [JNum 1])) test_base None []
           (ok_with (JArr [JNum 1])) (JArr [JNum 1]) eq_refl eq_refl Hno).
Defined.

Lemma list_does_not_fall_back_witness :
  let m : gmap string JSON := <[ "results" := JStr "oops" ]> {[ "data" := JArr [JNum 1] ]} in
  (m !! "results" = Some (JStr "oops")
   ∧ truthy (JStr "oops") = true
   ∧ ∀ l, JStr "oops" ≠ JArr l)
  ∧ ∃ msg,
      customers_list JSON Some (answers (JObj m)) test_base None [] =
        (Raise (ValidationError msg), [] ++ [list_call]).
Proof.
  intros m.
  assert (m !! "results" = Some (JStr "oops")) as Hresults by (vm_compute; reflexivity).
  assert (∀ l, JStr "oops" ≠ JArr l) as Hno by (intros l; discriminate).
  split; [by split|].
  exact (list_does_not_fall_back JSON Some (answers (JObj m)) test_base None []
           (ok_with (JObj m)) m (JStr "oops") eq_refl eq_refl Hresults eq_refl Hno).
Defined.

Lemma customers_list_elementwise_witness :
  let m : gmap string JSON := {[ "data" := JArr [JNum 1; JNum 2] ]} in
  customers_list JSON Some (answers (JObj m)) test_base None [] =
    (Ok [JNum 1; JNum 2], [list_call])
  ∧ ∃ r m' l,
      answers (JObj m) 0%nat list_call = Ok r
      ∧ body_json r = Some (JObj m')
      ∧ list_items (JObj m') = Ok (JArr l)
      ∧ Forall2 (λ j c, Some j = Some c) l [JNum 1; JNum 2].
Proof.
  intros m.
  assert (customers_list JSON Some (answers (JObj m)) test_base None [] =
            (Ok [JNum 1; JNum 2], [list_call])) as Hlist by (vm_compute; reflexivity).
  split; [exact Hlist|].
  exact (customers_list_elementwise JSON Some (answers (JObj m)) test_base None
           [] [JNum 1; JNum 2] [list_call] Hlist).
Defined.

Lemma get_id_type_code_spellings_witness :
  all_ascii "Nit" = true
  ∧ get_id_type_code "Nit" = Some "31"
  ∧ get_id_type_code "cC" = Some "13"
  ∧ get_id_type_code "RUT" = None.
Proof.
  split; [reflexivity|].
  destruct (get_id_type_code_spellings "Nit" eq_refl) as (_ & Hnit & _).
  split; [apply Hnit; cbn; auto 10|].
  destruct (get_id_type_code_spellings "cC" eq_refl) as (Hcc & _ & _).
  split; [apply Hcc; cbn; auto | reflexivity].
Defined.
